(** * SRG SSR weather integration: a shallow embedding of [weather.py]

    The development follows the module top to bottom: the JSON values the
    two endpoints return, Python's coercions [int()] and [float()] on them,
    the token manager ([_check_client_credentials_response],
    [_renew_api_key], [get_api_key]), the entity with its update cycle
    ([__get], [__update], one turn of [__update_loop]), [parse_forecast],
    [deg_to_cardinal] and [get_condition_from_symbol].

    Conventions of the model.
    - A finite Python float is the rational it denotes; the two
      infinities and NaN stand beside.  The float arithmetic of
      [deg_to_cardinal], [%] and [/], rounds its exact result to the
      nearest binary64 value ([b64]), as the interpreter does.  [int()]
      and [float()] of a JSON number keep its value, which is what the
      interpreter does below 2^53.
    - Exceptions are a sum type; a computation returns its outcome together
      with the state it leaves behind, because Python keeps every mutation
      made before a raise.
    - Library and network behaviour the module does not define (ISO-8601
      parsing, number literals, base64, the clock, the two HTTP endpoints)
      is a parameter of the development; the environment answers each call
      as a function of the whole history of calls made so far. *)

From Stdlib Require Import ZArith QArith Qround Qabs Qpower String Ascii List.
From Stdlib Require Import Lia Lqa.
From Stdlib Require Import DecimalString.
From stdpp Require Import base option list strings gmap.

Set Warnings "-register-all".

(** ** Values *)

(** A Python float. *)
Inductive pyfloat : Type :=
  | FNum (q : Q)
  | FInf (negative : bool)
  | FNan.

(** What [json.loads] produces.  A dict is kept as its list of items; a
    lookup returns the first binding of a key. *)
Inductive json : Type :=
  | JNull
  | JBool (b : bool)
  | JInt (z : Z)
  | JFloat (f : pyfloat)
  | JStr (s : string)
  | JList (l : list json)
  | JDict (items : list (string * json)).

(** The exceptions the module can meet. [ClientError] stands for every
    failure of the HTTP transport, [raise_for_status] included. *)
Inductive exn : Type :=
  | KeyError
  | IndexError
  | TypeError
  | ValueError
  | OverflowError
  | ClientError
  | CancelledError.

Inductive result (A : Type) : Type :=
  | Ok (a : A)
  | Raise (e : exn).
Arguments Ok {A} a.
Arguments Raise {A} e.

Definition rbind {A B} (r : result A) (k : A -> result B) : result B :=
  match r with
  | Ok a => k a
  | Raise e => Raise e
  end.

Definition of_option {A} (o : option A) (e : exn) : result A :=
  match o with
  | Some a => Ok a
  | None => Raise e
  end.

Definition is_ok {A} (r : result A) : bool :=
  match r with Ok _ => true | Raise _ => false end.

Declare Scope result_scope.
Delimit Scope result_scope with res.
Notation "x <- r ;; k" := (rbind r (fun x => k))
  (at level 100, r at next level, right associativity) : result_scope.

(** ** Dict and sequence access *)

Fixpoint assoc {A} (k : string) (items : list (string * A)) : option A :=
  match items with
  | [] => None
  | (k', v) :: rest => if String.eqb k k' then Some v else assoc k rest
  end.

(** [k in d] for a dict. *)
Definition has_key {A} (k : string) (items : list (string * A)) : bool :=
  match assoc k items with Some _ => true | None => false end.

(** [v[key]] with a string key: defined on dicts only. *)
Definition getitem (v : json) (key : string) : result json :=
  match v with
  | JDict items => of_option (assoc key items) KeyError
  | _ => Raise TypeError
  end.

Fixpoint chars (s : string) : list json :=
  match s with
  | EmptyString => []
  | String c rest => JStr (String c EmptyString) :: chars rest
  end.

(** [iter(v)]: what a [for] loop or a generator walks through. *)
Definition py_iter (v : json) : result (list json) :=
  match v with
  | JList l => Ok l
  | JDict items => Ok (map (fun kv => JStr (fst kv)) items)
  | JStr s => Ok (chars s)
  | _ => Raise TypeError
  end.

(** [v[-1]]. *)
Definition getitem_last (v : json) : result json :=
  match v with
  | JList l => of_option (last l) IndexError
  | JStr s => of_option (last (chars s)) IndexError
  | JDict _ => Raise KeyError
  | _ => Raise TypeError
  end.

(** ** Float arithmetic *)

(** Truncation toward zero, as [int()] does on a float. *)
Definition Qtrunc (q : Q) : Z :=
  if Qle_bool 0 q then Qfloor q else Qceiling q.

(** [round(x)] with one argument: nearest integer, ties to the even one.
    On a float this is exact. *)
Definition py_round (x : Q) : Z :=
  let f := Qfloor x in
  match ((x - inject_Z f) ?= (1 # 2))%Q with
  | Lt => f
  | Gt => (f + 1)%Z
  | Eq => if Z.even f then f else (f + 1)%Z
  end.

(** The position of the leading bit of a positive rational:
    [2^l <= q < 2^(l+1)]. *)
Definition Qlog2 (q : Q) : Z :=
  let l := (Z.log2 (Qnum q) - Z.log2 (Zpos (Qden q)))%Z in
  if Qle_bool (2 ^ l) q then l else (l - 1)%Z.

(** The binary64 value nearest to [q], ties to the even mantissa: the
    mantissa has 53 bits and the exponent of its last bit is -1074 at
    least, so that subnormal results are covered.  Overflow to an
    infinity is left out; the operations below are used where results
    stay far below 2^1024. *)
Definition b64 (q : Q) : Q :=
  if Qeq_bool q 0 then 0%Q
  else
    let e := Z.max (Qlog2 (Qabs q) - 52) (-1074) in
    (inject_Z (py_round (q / 2 ^ e)) * 2 ^ e)%Q.

(** C's [fmod]: the remainder of the division truncated toward zero.  It
    has the sign of [x] and is always a float, so nothing is rounded. *)
Definition c_fmod (x y : Q) : Q :=
  (x - y * inject_Z (Qtrunc (x / y)))%Q.

(** [x % y] on floats ([float_rem]): [fmod(x, y)], to which [y] is added
    when it is not zero and its sign differs from the sign of [y]; this
    addition is a float addition and rounds. *)
Definition py_fmod (x y : Q) : Q :=
  let r := c_fmod x y in
  if Qeq_bool r 0 then 0%Q
  else if negb (Bool.eqb (Qle_bool 0 y) (Qle_bool 0 r)) then b64 (r + y)
  else r.

(** [x / y] on floats, and on two ints. *)
Definition py_truediv (x y : Q) : Q := b64 (x / y).

(** ** Bearing *)

Definition CARDINALS : list string :=
  [ "N"; "NNE"; "NE"; "ENE"; "E"; "ESE"; "SE"; "SSE";
    "S"; "SSW"; "SW"; "WSW"; "W"; "WNW"; "NW"; "NNW" ]%string.

Definition DEG_HALF_CIRCLE : Z := 180.
Definition DEG_FULL_CIRCLE : Z := 2 * DEG_HALF_CIRCLE.
Definition _CARDINAL_DEGREE : Q :=
  py_truediv (inject_Z DEG_FULL_CIRCLE)
    (inject_Z (Z.of_nat (length CARDINALS))).

(** The sector index [i] of the source, for a finite angle:
    [round((deg % DEG_FULL_CIRCLE) / _CARDINAL_DEGREE)]. *)
Definition cardinal_index (deg : Q) : Z :=
  py_round
    (py_truediv (py_fmod deg (inject_Z DEG_FULL_CIRCLE)) _CARDINAL_DEGREE).

(** [deg_to_cardinal].  An infinity makes [%] answer NaN, and NaN makes
    [round] raise. *)
Definition deg_to_cardinal (deg : pyfloat) : result string :=
  match deg with
  | FNum q =>
      let i := cardinal_index q in
      of_option
        (CARDINALS !! Z.to_nat (i mod Z.of_nat (length CARDINALS)))
        IndexError
  | FInf _ => Raise ValueError
  | FNan => Raise ValueError
  end.

(** Following the spec's words instead: the angle is reduced modulo 360
    and rounded to the nearest sector in exact arithmetic. *)
Definition exact_mod (x y : Q) : Q :=
  (x - y * inject_Z (Qfloor (x / y)))%Q.

(** The nearest sector, a tie going to the even index. *)
Definition nearest_sector (deg : Q) : Z :=
  py_round (exact_mod deg 360 / (45 # 2))%Q.

(** The nearest sector, a tie going to the higher index. *)
Definition round_half_up (x : Q) : Z := Qfloor (x + (1 # 2))%Q.

Definition to_cardinal_ties_up (deg : Q) : option string :=
  CARDINALS
    !! Z.to_nat (round_half_up (exact_mod deg 360 / (45 # 2))%Q mod 16).

(** ** Condition mapping *)

Definition SYMBOL_STATE_MAP : list (Z * string) :=
  [ (1, "sunny"); (2, "fog"); (3, "partlycloudy"); (4, "rainy");
    (5, "lightning-rainy"); (6, "snowy"); (7, "snowy-rainy");
    (8, "snowy-rainy"); (9, "snowy-rainy"); (10, "sunny"); (11, "sunny");
    (12, "sunny"); (13, "sunny"); (14, "sunny"); (15, "sunny");
    (16, "sunny"); (17, "fog"); (18, "cloudy"); (19, "cloudy");
    (20, "rainy"); (21, "snowy"); (22, "snowy-rainy"); (23, "pouring");
    (24, "snowy"); (25, "rainy"); (26, "lightning"); (27, "snowy");
    (28, "cloudy"); (29, "snowy-rainy"); (30, "snowy-rainy");
    (-1, "clear-night"); (-2, "fog"); (-3, "cloudy"); (-4, "rainy");
    (-5, "lightning-rainy"); (-6, "snowy"); (-7, "snowy");
    (-8, "snowy-rainy"); (-9, "lightning-rainy"); (-10, "partlycloudy");
    (-11, "rainy"); (-12, "lightning"); (-13, "snowy"); (-14, "snowy");
    (-15, "snowy-rainy"); (-16, "partlycloudy"); (-17, "fog");
    (-18, "cloudy"); (-19, "cloudy"); (-20, "rainy"); (-21, "snowy");
    (-22, "snowy-rainy"); (-23, "pouring"); (-24, "snowy"); (-25, "rainy");
    (-26, "lightning"); (-27, "rainy"); (-28, "lightning-rainy");
    (-29, "snowy-rainy"); (-30, "snowy-rainy") ]%string%Z.

Fixpoint zassoc {A} (k : Z) (items : list (Z * A)) : option A :=
  match items with
  | [] => None
  | (k', v) :: rest => if Z.eqb k k' then Some v else zassoc k rest
  end.

Definition STATE_UNAVAILABLE : string := "unavailable".

(** [d[k] = v] on a dict kept as its items: an existing key keeps its
    place, a new one goes last. *)
Fixpoint dict_set {A} (k : string) (v : A) (items : list (string * A))
  : list (string * A) :=
  match items with
  | [] => [(k, v)]
  | (k', v') :: rest =>
      if String.eqb k k' then (k, v) :: rest
      else (k', v') :: dict_set k v rest
  end.

(** [d.update(other)]. *)
Definition dict_update {A} (d other : list (string * A))
  : list (string * A) :=
  fold_left (fun acc kv => dict_set (fst kv) (snd kv) acc) other d.

(** ** The library and the environment *)

(** The functions of Python's library whose results the module consumes.
    [None] is the call raising. *)
Record pylib : Type := {
  datetime : Type;
  fromisoformat : string -> option datetime;
  isoformat : datetime -> string;
  (** [a > b]; undefined between a naive and an aware datetime. *)
  dt_gt : datetime -> datetime -> option bool;
  fromtimestamp : Q -> option datetime;
  (** [float(s)] and [int(s)] on a string. *)
  float_of_str : string -> option pyfloat;
  int_of_str : string -> option Z;
  (** [str(v)] for a value that is not a string. *)
  str_of : json -> string;
  b64encode : string -> string
}.

Definition headers : Type := list (string * string).

(** Everything the module does that the outside can observe, most recent
    first in a trace. *)
Inductive event : Type :=
  | EvTime
  | EvNow
  | EvPost (url : string) (params : headers) (hdrs : headers)
  | EvGet (url : string) (kwargs : list (string * headers))
  | EvLog (level : string) (msg : string) (args : list json)
  | EvPublish
  | EvRandrange (lo hi : Z)
  | EvSleep (delay : Z).

(** What [session.get] hands back: the status, the headers (looked up
    by their exact name here) and what [resp.json()] gives. *)
Record response : Type := {
  status : Z;
  resp_headers : headers;
  resp_json : result json
}.

(** The outside world.  Each answer may depend on the whole trace, whose
    head is the call being answered. *)
Record environment (L : pylib) : Type := {
  time_time : list event -> Q;
  datetime_now : list event -> datetime L;
  session_post : list event -> result json;
  session_get : list event -> result response;
  async_update_ha_state : list event -> result unit;
  random_randrange : list event -> Z;
  asyncio_sleep : list event -> result unit
}.
Arguments time_time {L}.
Arguments datetime_now {L}.
Arguments session_post {L}.
Arguments session_get {L}.
Arguments async_update_ha_state {L}.
Arguments random_randrange {L}.
Arguments asyncio_sleep {L}.

(** ** Program state *)

(** The entry configuration.  Latitude and longitude are whatever the
    config entry holds; the keys are strings. *)
Record config : Type := {
  conf_latitude : json;
  conf_longitude : json;
  conf_name : option string;
  conf_consumer_key : string;
  conf_consumer_secret : string
}.

(** [self._api_data]: the copy of the configuration in which the token and
    its expiry are cached, restricted to the keys the module reads and
    writes.  The key constants of [const.py] are taken to be distinct. *)
Record api_data : Type := {
  CONF_CONSUMER_KEY : string;
  CONF_CONSUMER_SECRET : string;
  ATTR_EXPIRES_AT : option Z;
  ATTR_API_KEY : option json
}.

(** The dict [parse_forecast] returns. *)
Definition fentry : Type := list (string * json).

(** [self._default_params]: a dict literal with exactly these two keys. *)
Record default_params : Type := {
  latitude : string;
  longitude : string
}.

(** The attributes of [SRGSSTWeather].  The two forecast attributes hold
    references to list objects in the store. *)
Record entity : Type := {
  _default_params : default_params;
  _forecast : nat;
  _hourly_forecast : nat;
  _state : option string;
  _temperature : option pyfloat;
  _wind_speed : option pyfloat;
  _wind_bearing : option string;
  _state_attrs : gmap string json
}.

Record world : Type := {
  trace : list event;
  data : api_data;
  (** the list objects created by [[]], addressed by position *)
  store : list (list fentry);
  self : entity
}.

Definition set_trace (t : list event) (s : world) : world :=
  {| trace := t; data := data s; store := store s; self := self s |}.
Definition set_data (d : api_data) (s : world) : world :=
  {| trace := trace s; data := d; store := store s; self := self s |}.
Definition set_store (h : list (list fentry)) (s : world) : world :=
  {| trace := trace s; data := data s; store := h; self := self s |}.
Definition set_self (e : entity) (s : world) : world :=
  {| trace := trace s; data := data s; store := store s; self := e |}.

(** ** The monad of the module: mutations survive a raise *)

Definition M (A : Type) : Type := world -> result A * world.

Definition ret {A} (a : A) : M A := fun s => (Ok a, s).
Definition raise {A} (e : exn) : M A := fun s => (Raise e, s).
Definition bind {A B} (m : M A) (k : A -> M B) : M B :=
  fun s =>
    match m s with
    | (Ok a, s') => k a s'
    | (Raise e, s') => (Raise e, s')
    end.
Definition lift {A} (r : result A) : M A := fun s => (r, s).
Definition gets {A} (f : world -> A) : M A := fun s => (Ok (f s), s).
Definition modify (f : world -> world) : M unit := fun s => (Ok tt, f s).

Declare Scope monad_scope.
Delimit Scope monad_scope with M.
Notation "x <- m ;; k" := (bind m (fun x => k))
  (at level 100, m at next level, right associativity) : monad_scope.
Notation "m ;; k" := (bind m (fun _ => k))
  (at level 100, right associativity) : monad_scope.

(** Perform an observable action: push its event. *)
Definition emit (e : event) : M unit :=
  modify (fun s => set_trace (e :: trace s) s).

(** [CancelledError] is the one exception here that [except Exception]
    lets through. *)
Definition is_Exception (e : exn) : bool :=
  match e with CancelledError => false | _ => true end.

(** [try: m  except Exception: handler]; the handler decides whether it
    raises again. *)

Definition try_except {A} (m : M A) (handler : exn -> M A) : M A :=
  fun s =>
    match m s with
    | (Ok a, s') => (Ok a, s')
    | (Raise e, s') =>
        if is_Exception e then handler e s' else (Raise e, s')
    end.

(** Attribute assignment on [self] and item assignment on [data]. *)
Definition assign_forecast (r : nat) (e : entity) : entity :=
  {| _default_params := _default_params e; _forecast := r;
     _hourly_forecast := _hourly_forecast e; _state := _state e;
     _temperature := _temperature e; _wind_speed := _wind_speed e;
     _wind_bearing := _wind_bearing e; _state_attrs := _state_attrs e |}.
Definition assign_hourly_forecast (r : nat) (e : entity) : entity :=
  {| _default_params := _default_params e; _forecast := _forecast e;
     _hourly_forecast := r; _state := _state e;
     _temperature := _temperature e; _wind_speed := _wind_speed e;
     _wind_bearing := _wind_bearing e; _state_attrs := _state_attrs e |}.
Definition assign_state (c : string) (e : entity) : entity :=
  {| _default_params := _default_params e; _forecast := _forecast e;
     _hourly_forecast := _hourly_forecast e; _state := Some c;
     _temperature := _temperature e; _wind_speed := _wind_speed e;
     _wind_bearing := _wind_bearing e; _state_attrs := _state_attrs e |}.
Definition assign_temperature (t : pyfloat) (e : entity) : entity :=
  {| _default_params := _default_params e; _forecast := _forecast e;
     _hourly_forecast := _hourly_forecast e; _state := _state e;
     _temperature := Some t; _wind_speed := _wind_speed e;
     _wind_bearing := _wind_bearing e; _state_attrs := _state_attrs e |}.
Definition assign_wind_speed (w : pyfloat) (e : entity) : entity :=
  {| _default_params := _default_params e; _forecast := _forecast e;
     _hourly_forecast := _hourly_forecast e; _state := _state e;
     _temperature := _temperature e; _wind_speed := Some w;
     _wind_bearing := _wind_bearing e; _state_attrs := _state_attrs e |}.
Definition assign_wind_bearing (b : string) (e : entity) : entity :=
  {| _default_params := _default_params e; _forecast := _forecast e;
     _hourly_forecast := _hourly_forecast e; _state := _state e;
     _temperature := _temperature e; _wind_speed := _wind_speed e;
     _wind_bearing := Some b; _state_attrs := _state_attrs e |}.
Definition assign_state_attrs (a : gmap string json) (e : entity) : entity :=
  {| _default_params := _default_params e; _forecast := _forecast e;
     _hourly_forecast := _hourly_forecast e; _state := _state e;
     _temperature := _temperature e; _wind_speed := _wind_speed e;
     _wind_bearing := _wind_bearing e; _state_attrs := a |}.

Definition assign_expires_at (z : Z) (d : api_data) : api_data :=
  {| CONF_CONSUMER_KEY := CONF_CONSUMER_KEY d;
     CONF_CONSUMER_SECRET := CONF_CONSUMER_SECRET d;
     ATTR_EXPIRES_AT := Some z; ATTR_API_KEY := ATTR_API_KEY d |}.
Definition assign_api_key (k : json) (d : api_data) : api_data :=
  {| CONF_CONSUMER_KEY := CONF_CONSUMER_KEY d;
     CONF_CONSUMER_SECRET := CONF_CONSUMER_SECRET d;
     ATTR_EXPIRES_AT := ATTR_EXPIRES_AT d; ATTR_API_KEY := Some k |}.

Definition setattr (f : entity -> entity) : M unit :=
  modify (fun s => set_self (f (self s)) s).
Definition setitem (f : api_data -> api_data) : M unit :=
  modify (fun s => set_data (f (data s)) s).

(** [[]]: a new list object; [l.append(x)] on the object at [r]. *)
Definition new_list : M nat :=
  fun s => (Ok (length (store s)), set_store (store s ++ [[]]) s).
Definition list_append (r : nat) (x : fentry) : M unit :=
  modify (fun s => set_store (alter (fun l => l ++ [x]) r (store s)) s).

(** ** Constants of the module *)

Definition API_URL : string := "https://api.srgssr.ch".
Definition URL_OAUTH : string := API_URL +:+ "/oauth/v1/accesstoken".
(** [URL_FORECASTS.format(geolocationId=g)]. *)
Definition URL_FORECASTS (geolocationId : string) : string :=
  API_URL +:+ "/srf-meteo/forecast/" +:+ geolocationId.
Definition HTTP_OK : Z := 200.
Definition EXPECTED_KEYS : list string :=
  ["issued_at"; "expires_in"; "access_token"]%string.

(** [float(z)] overflows from this magnitude on. *)
Definition float_max_int : Z := 2 ^ 1024 - 2 ^ 970.

Section Program.
Context (L : pylib) (env : environment L).
Local Open Scope monad_scope.

(** *** Coercions *)

Definition py_float (v : json) : result pyfloat :=
  match v with
  | JFloat f => Ok f
  | JInt z =>
      if (Z.abs z <? float_max_int)%Z then Ok (FNum (inject_Z z))
      else Raise OverflowError
  | JBool b => Ok (FNum (if b then 1 else 0))
  | JStr s => of_option (float_of_str L s) ValueError
  | _ => Raise TypeError
  end.

Definition py_int (v : json) : result Z :=
  match v with
  | JInt z => Ok z
  | JBool b => Ok (if b then 1 else 0)%Z
  | JFloat (FNum q) => Ok (Qtrunc q)
  | JFloat (FInf _) => Raise OverflowError
  | JFloat FNan => Raise ValueError
  | JStr s => of_option (int_of_str L s) ValueError
  | _ => Raise TypeError
  end.

(** [str(v)], as an f-string or [str.format] applies it. *)
Definition py_str (v : json) : string :=
  match v with
  | JStr s => s
  | _ => str_of L v
  end.

(** [float(d[k])] and [int(d[k])]. *)
Definition float_at (d : json) (k : string) : M pyfloat :=
  lift (rbind (getitem d k) py_float).
Definition int_at (d : json) (k : string) : M Z :=
  lift (rbind (getitem d k) py_int).

(** *** Calls into the environment *)

Definition ask {A} (oracle : list event -> A) : M A :=
  gets (fun s => oracle (trace s)).
Definition await {A} (oracle : list event -> result A) : M A :=
  fun s => (oracle (trace s), s).

Definition time_now : M Q := emit EvTime ;; ask (time_time env).
Definition now_astimezone : M (datetime L) :=
  emit EvNow ;; ask (datetime_now env).

(** *** Token manager *)

(** [_check_client_credentials_response].  The source fills in
    [issued_at] in place; here the checked dict is the result.  A body
    that is not a JSON object never passes. *)
Definition _check_client_credentials_response (d : json) : M json :=
  match d with
  | JDict items =>
      items' <- (if has_key "issued_at" items then ret items
                 else t <- time_now ;;
                      ret (dict_set "issued_at" (JInt (Qtrunc t)) items)) ;;
      match List.filter (fun k => negb (has_key k items')) EXPECTED_KEYS with
      | [] => ret (JDict items')
      | missing =>
          emit (EvLog "warning"
                  "received client credentials response with missing keys"
                  (map JStr missing ++ [JDict items'])) ;;
          raise ValueError
      end
  | _ => raise TypeError
  end.

(** [request_access_token]: the POST and the [resp.json()] that follows
    are one answer of the environment. *)
Definition request_access_token (key secret : string) : M json :=
  let auth := b64encode L (key +:+ ":" +:+ secret) in
  let hdrs := [("Authorization", "Basic " +:+ auth)]%string in
  let params := [("grant_type", "client_credentials")]%string in
  emit (EvPost URL_OAUTH params hdrs) ;;
  d <- await (session_post env) ;;
  _check_client_credentials_response d.

(** [_renew_api_key], with [data] the credentials of the world. *)
Definition _renew_api_key : M unit :=
  key <- gets (fun s => CONF_CONSUMER_KEY (data s)) ;;
  secret <- gets (fun s => CONF_CONSUMER_SECRET (data s)) ;;
  token_data <- request_access_token key secret ;;
  try_except
    (expires_in <- int_at token_data "expires_in" ;;
     issued_at <- int_at token_data "issued_at" ;;
     setitem (assign_expires_at (expires_in + issued_at / 1000)%Z) ;;
     tok <- lift (getitem token_data "access_token") ;;
     setitem (assign_api_key tok))
    (fun e =>
       emit (EvLog "error"
               "exception while parsing access token response: %s"
               [token_data]) ;;
       raise e).

(** [get_api_key]. *)
Definition get_api_key : M json :=
  expires <- gets (fun s => ATTR_EXPIRES_AT (data s)) ;;
  renew <- match expires with
           | None => ret true
           | Some expires_at =>
               t <- time_now ;; ret (Qle_bool (inject_Z expires_at) t)
           end ;;
  (if renew : bool
   then emit (EvLog "info" "renewing api key" []) ;; _renew_api_key
   else ret tt) ;;
  key <- gets (fun s => ATTR_API_KEY (data s)) ;;
  lift (of_option key KeyError).

(** *** Helpers at the end of the module *)

Definition get_condition_from_symbol (symbol_id : Z) : M string :=
  match zassoc symbol_id SYMBOL_STATE_MAP with
  | Some condition => ret condition
  | None =>
      emit (EvLog "warning" "No condition entry for symbol id {}"
              [JInt symbol_id]) ;;
      ret STATE_UNAVAILABLE
  end.

Definition weak_update (d : list (string * headers)) (key : string)
    (value : headers) : list (string * headers) :=
  let value' := match assoc key d with
                | None => value
                | Some existing => dict_update value existing
                end in
  dict_set key value' d.

Definition parse_datetime (v : json) : result (datetime L) :=
  match v with
  | JStr s => of_option (fromisoformat L s) ValueError
  | _ => Raise TypeError
  end.

Definition parse_forecast (day : json) : M fentry :=
  date <- lift (rbind (getitem day "local_date_time") parse_datetime) ;;
  temp_high <- float_at day "TX_C" ;;
  temp_low <- float_at day "TN_C" ;;
  symbol_id <- int_at day "SYMBOL_CODE" ;;
  condition <- get_condition_from_symbol symbol_id ;;
  precip_total <- float_at day "RRR_MM" ;;
  wind_bearing <- int_at day "DD_DEG" ;;
  wind_speed <- float_at day "FF_KMH" ;;
  ret [ ("datetime", JStr (isoformat L date));
        ("temperature", JFloat temp_high);
        ("condition", JStr condition);
        ("symbol_id", JInt symbol_id);
        ("templow", JFloat temp_low);
        ("precipitation", JFloat precip_total);
        ("wind_bearing", JFloat precip_total);
        ("wind_speed", JFloat wind_speed) ]%string.

(** *** The entity *)

(** [SRGSSTWeather.__get]. *)
Definition __get (url : string) (kwargs : list (string * headers))
  : M json :=
  api_key <- get_api_key ;;
  let kwargs :=
    weak_update kwargs "headers"
      [("Authorization", "Bearer " +:+ py_str api_key)]%string in
  emit (EvGet url kwargs) ;;
  resp <- await (session_get env) ;;
  (if (status resp =? HTTP_OK)%Z
   then
     (* the arguments of the rate-limit debug message are evaluated *)
     reset <- lift match assoc "x-ratelimit-reset-time" (resp_headers resp) with
                   | None => Ok 0%Z
                   | Some h => of_option (int_of_str L h) ValueError
                   end ;;
     _ <- lift (of_option (fromtimestamp L (inject_Z reset / 1000)%Q)
                  OverflowError) ;;
     ret tt
   else ret tt) ;;
  body <- lift (resp_json resp) ;;
  (* [raise_for_status] *)
  (if (400 <=? status resp)%Z then raise ClientError else ret tt) ;;
  ret body.

(** The generator expression of [__update] under [next(..., None)]: the
    first record whose time lies after [now]. *)
Fixpoint next_future (now : datetime L) (fs : list json)
  : result (option json) :=
  match fs with
  | [] => Ok None
  | f :: rest =>
      (t <- rbind (getitem f "local_date_time") parse_datetime ;;
       later <- of_option (dt_gt L t now) TypeError ;;
       if later : bool then Ok (Some f) else next_future now rest)%res
  end.

(** One of the two parsing loops of [__update]: every record that
    parses is appended to the list object at [target]. *)
Fixpoint parse_loop (target : nat) (raws : list json) : M unit :=
  match raws with
  | [] => ret tt
  | raw :: rest =>
      parsed <- try_except
                  (entry <- parse_forecast raw ;; ret (Some entry))
                  (fun _ =>
                     emit (EvLog "warning" "failed to parse forecast day: "
                             [raw]) ;;
                     ret None) ;;
      match parsed with
      | Some entry => list_append target entry
      | None => ret tt
      end ;;
      parse_loop target rest
  end.

(** [SRGSSTWeather.__update]. *)
Definition __update : M unit :=
  params <- gets (fun s => _default_params (self s)) ;;
  let geoid := latitude params +:+ "," +:+ longitude params in
  let url := URL_FORECASTS "47.0274,8.3020" in
  data <- __get url [] ;;
  hourlyforecast <- lift (rbind (getitem data "forecast")
                            (fun f => getitem f "60minutes")) ;;
  now <- now_astimezone ;;
  candidates <- lift (py_iter hourlyforecast) ;;
  found <- lift (next_future now candidates) ;;
  forecastnow <- match found with
                 | Some f => ret f
                 | None =>
                     emit (EvLog "warning"
                             "No forecast found for current hour {}" []) ;;
                     lift (getitem_last hourlyforecast)
                 end ;;
  symbol_id <- int_at forecastnow "SYMBOL_CODE" ;;
  condition <- get_condition_from_symbol symbol_id ;;
  setattr (assign_state condition) ;;
  temperature <- float_at forecastnow "TTT_C" ;;
  setattr (assign_temperature temperature) ;;
  mean_wind <- float_at forecastnow "FF_KMH" ;;
  setattr (assign_wind_speed mean_wind) ;;
  gust <- float_at forecastnow "FX_KMH" ;;
  setattr (assign_wind_speed gust) ;;
  wind_bearing_deg <- float_at forecastnow "DD_DEG" ;;
  cardinal <- lift (deg_to_cardinal wind_bearing_deg) ;;
  setattr (assign_wind_bearing cardinal) ;;
  precipitation <- float_at forecastnow "RRR_MM" ;;
  rain_probability <- float_at forecastnow "PROBPCP_PERCENT" ;;
  setattr (fun e =>
    assign_state_attrs
      (<["rain_probability" := JFloat rain_probability]>
         (<["precipitation" := JFloat precipitation]>
            (<["symbol_id" := JInt symbol_id]>
               (<["wind_direction" := JFloat wind_bearing_deg]>
                  (_state_attrs e))))) e) ;;
  forecast <- new_list ;;
  days <- lift (rbind (rbind (getitem data "forecast")
                         (fun f => getitem f "day")) py_iter) ;;
  parse_loop forecast days ;;
  setattr (assign_forecast forecast) ;;
  hourly_forecast <- new_list ;;
  hours <- lift (rbind (rbind (getitem data "forecast")
                          (fun f => getitem f "60minutes")) py_iter) ;;
  (* the source appends to [forecast] here *)
  parse_loop forecast hours ;;
  setattr (assign_hourly_forecast hourly_forecast).

(** One turn of the [while True] of [__update_loop]. *)
Definition __update_loop_turn : M unit :=
  (fun s =>
     match __update s with
     | (Ok _, s') =>
         (emit EvPublish ;; await (async_update_ha_state env)) s'
     | (Raise CancelledError, s') => (Raise CancelledError, s')
     | (Raise _, s') =>
         emit (EvLog "error" "failed to update weather" []) s'
     end) ;;
  emit (EvRandrange 55 65) ;;
  minutes <- ask (random_randrange env) ;;
  let delay := (minutes * 60)%Z in
  emit (EvSleep delay) ;;
  await (asyncio_sleep env).

(** [n] turns of the loop; the source's loop ends only by a raise. *)
Fixpoint __update_loop (n : nat) : M unit :=
  match n with
  | O => ret tt
  | S n' => __update_loop_turn ;; __update_loop n'
  end.

(** [SRGSSTWeather.__init__]. *)
Definition __init__ (c : config) : world :=
  {| trace := [];
     data := {| CONF_CONSUMER_KEY := conf_consumer_key c;
                CONF_CONSUMER_SECRET := conf_consumer_secret c;
                ATTR_EXPIRES_AT := None;
                ATTR_API_KEY := None |};
     store := [[]; []];
     self := {| _default_params :=
                  {| latitude := py_str (conf_latitude c);
                     longitude := py_str (conf_longitude c) |};
                _forecast := 0;
                _hourly_forecast := 1;
                _state := None;
                _temperature := None;
                _wind_speed := None;
                _wind_bearing := None;
                _state_attrs := ∅ |} |}.
End Program.

(** ** What the host reads *)

(** The properties of the entity, read through the store. *)
Definition forecast (s : world) : list fentry :=
  default [] (store s !! _forecast (self s)).
Definition hourly_forecast (s : world) : list fentry :=
  default [] (store s !! _hourly_forecast (self s)).
Definition wind_speed (s : world) : option pyfloat := _wind_speed (self s).

Record snapshot : Type := {
  pub_state : option string;
  pub_temperature : option pyfloat;
  pub_wind_speed : option pyfloat;
  pub_wind_bearing : option string;
  pub_state_attrs : gmap string json;
  pub_forecast : list fentry;
  pub_hourly_forecast : list fentry
}.

Definition published (s : world) : snapshot :=
  {| pub_state := _state (self s);
     pub_temperature := _temperature (self s);
     pub_wind_speed := wind_speed s;
     pub_wind_bearing := _wind_bearing (self s);
     pub_state_attrs := _state_attrs (self s);
     pub_forecast := forecast s;
     pub_hourly_forecast := hourly_forecast s |}.

(** ** Vocabulary of the statements *)

Definition is_post (e : event) : bool :=
  match e with EvPost _ _ _ => true | _ => false end.
Definition is_get (e : event) : bool :=
  match e with EvGet _ _ => true | _ => false end.

(** How many calls went to the token endpoint, and how many to the
    forecast endpoint. *)
Definition count_posts (t : list event) : nat :=
  length (List.filter is_post t).
Definition count_gets (t : list event) : nat :=
  length (List.filter is_get t).

(** The records the loops of [__update] logged as skipped, the latest
    first. *)
Definition skipped (t : list event) : list json :=
  omap (fun e =>
          match e with
          | EvLog level msg [raw] =>
              if (String.eqb level "warning"
                  && String.eqb msg "failed to parse forecast day: ")%bool
              then Some raw else None
          | _ => None
          end) t.

(** The token and its expiry are cached together or not at all. *)
Definition cached_together (d : api_data) : Prop :=
  ATTR_API_KEY d = None <-> ATTR_EXPIRES_AT d = None.

(** The address [__update] asks. *)
Definition forecast_url : string := URL_FORECASTS "47.0274,8.3020".

Definition condition_of (symbol_id : Z) : string :=
  default STATE_UNAVAILABLE (zassoc symbol_id SYMBOL_STATE_MAP).

Section Vocabulary.
Context (L : pylib) (env : environment L).
Local Open Scope result_scope.

(** What [parse_forecast] returns or raises, its log left aside. *)
Definition parse_forecast_value (day : json) : result fentry :=
  date <- rbind (getitem day "local_date_time") (parse_datetime L) ;;
  temp_high <- rbind (getitem day "TX_C") (py_float L) ;;
  temp_low <- rbind (getitem day "TN_C") (py_float L) ;;
  symbol_id <- rbind (getitem day "SYMBOL_CODE") (py_int L) ;;
  precip_total <- rbind (getitem day "RRR_MM") (py_float L) ;;
  wind_bearing <- rbind (getitem day "DD_DEG") (py_int L) ;;
  wind_speed <- rbind (getitem day "FF_KMH") (py_float L) ;;
  Ok [ ("datetime", JStr (isoformat L date));
       ("temperature", JFloat temp_high);
       ("condition", JStr (condition_of symbol_id));
       ("symbol_id", JInt symbol_id);
       ("templow", JFloat temp_low);
       ("precipitation", JFloat precip_total);
       ("wind_bearing", JFloat precip_total);
       ("wind_speed", JFloat wind_speed) ]%string.

(** The entries of the records that parse, in the order of the input. *)
Definition parsed_entries (raws : list json) : list fentry :=
  omap (fun raw => match parse_forecast_value raw with
                   | Ok entry => Some entry
                   | Raise _ => None
                   end) raws.

(** The record [__update] takes for the current hour. *)
Definition current_record (now : datetime L) (body : json) : result json :=
  hourlyforecast <- rbind (getitem body "forecast")
                      (fun f => getitem f "60minutes") ;;
  candidates <- py_iter hourlyforecast ;;
  found <- next_future L now candidates ;;
  match found with
  | Some f => Ok f
  | None => getitem_last hourlyforecast
  end.

(** The test [get_api_key] makes before it returns the cached token. *)
Definition needs_renewal (s : world) : bool :=
  match ATTR_EXPIRES_AT (data s) with
  | None => true
  | Some expires_at =>
      Qle_bool (inject_Z expires_at) (time_time env (EvTime :: trace s))
  end.

(** Following the spec's words: no token is cached, or the clock has
    reached [expires_at]. *)
Definition absent_or_expired (s : world) : Prop :=
  ATTR_API_KEY (data s) = None
  \/ exists expires_at,
       ATTR_EXPIRES_AT (data s) = Some expires_at
       /\ (inject_Z expires_at <= time_time env (EvTime :: trace s))%Q.
End Vocabulary.

(** ** Vocabulary of the proofs *)

(** A computation keeps [R] when [R] relates the world before to the
    world after, whatever the outcome. *)
Definition keeps {A} (R : relation world) (m : M A) : Prop :=
  forall s r s', m s = (r, s') -> R s s'.

(** The relations of interest ignore some components of the world. *)
Class TraceBlind (R : relation world) (allowed : event -> Prop) : Prop :=
  trace_blind : forall e s, allowed e -> R s (set_trace (e :: trace s) s).
Class DataBlind (R : relation world) : Prop :=
  data_blind : forall d s, R s (set_data d s).
Class EntityBlind (R : relation world) : Prop := {
  self_blind : forall e s, R s (set_self e s);
  store_blind : forall h s, R s (set_store h s)
}.

(** Only the trace moves. *)
Definition only_trace (s s' : world) : Prop :=
  data s' = data s /\ store s' = store s /\ self s' = self s.

(** The entity and its lists stay; the trace and the credentials may
    move. *)
Definition same_entity (s s' : world) : Prop :=
  store s' = store s /\ self s' = self s.

Definition any_event (e : event) : Prop := True.

(** The number of calls to the token endpoint stays. *)
Definition same_posts (s s' : world) : Prop :=
  count_posts (trace s') = count_posts (trace s).
Definition no_post (e : event) : Prop := is_post e = false.

(** The number of calls to the forecast endpoint stays. *)
Definition same_gets (s s' : world) : Prop :=
  count_gets (trace s') = count_gets (trace s).
Definition no_get (e : event) : Prop := is_get e = false.

(** Every call to the forecast endpoint goes to one address. *)
Definition asks_only (url : string) (s s' : world) : Prop :=
  forall u kw,
    In (EvGet u kw) (trace s') -> In (EvGet u kw) (trace s) \/ u = url.
Definition get_to (url : string) (e : event) : Prop :=
  forall u kw, e = EvGet u kw -> u = url.

(** ** A concrete library, to run the model on inputs

    Each function agrees with CPython on the inputs it accepts and
    accepts fewer: timestamps of the shape [YYYY-MM-DDTHH:MM:SS] with an
    optional [+HH:MM] or [-HH:MM] offset, and plain decimal literals. *)
Module Runtime.

Definition digit_of (c : ascii) : option Z :=
  let n := (Z.of_nat (nat_of_ascii c) - 48)%Z in
  if ((0 <=? n) && (n <? 10))%Z then Some n else None.

(** Exactly [n] decimal digits at the head of [s]. *)
Fixpoint take_digits (n : nat) (acc : Z) (s : string)
  : option (Z * string) :=
  match n with
  | O => Some (acc, s)
  | S n' =>
      match s with
      | String c rest =>
          d ← digit_of c; take_digits n' (acc * 10 + d)%Z rest
      | EmptyString => None
      end
  end.

Definition expect (c : ascii) (s : string) : option string :=
  match s with
  | String c' rest => if Ascii.eqb c c' then Some rest else None
  | EmptyString => None
  end.

Definition is_leap (y : Z) : bool :=
  ((y mod 4 =? 0) && (negb (y mod 100 =? 0) || (y mod 400 =? 0)))%Z.

Definition days_in_month (y m : Z) : Z :=
  if (m =? 2)%Z then (if is_leap y then 29 else 28)%Z
  else if ((m =? 4) || (m =? 6) || (m =? 9) || (m =? 11))%Z then 30%Z
  else 31%Z.

(** Days since 1970-01-01 in the proleptic Gregorian calendar. *)
Definition days_from_civil (y m d : Z) : Z :=
  (let y' := if m <=? 2 then y - 1 else y in
   let era := y' / 400 in
   let yoe := y' - era * 400 in
   let mp := (m + 9) mod 12 in
   let doy := (153 * mp + 2) / 5 + d - 1 in
   let doe := yoe * 365 + yoe / 4 - yoe / 100 + doy in
   era * 146097 + doe - 719468)%Z.

Record dt : Type := {
  dt_text : string;
  (** seconds since the epoch; for a naive value, of its wall time *)
  dt_seconds : Z;
  dt_aware : bool
}.

(** An offset [+HH:MM] or [-HH:MM] in seconds, or nothing. *)
Definition read_offset (s : string) : option (option Z) :=
  match s with
  | EmptyString => Some None
  | String c rest =>
      sign ← (if Ascii.eqb c "+" then Some 1%Z
              else if Ascii.eqb c "-" then Some (-1)%Z else None);
      '(h, r1) ← take_digits 2 0 rest;
      r2 ← expect ":" r1;
      '(m, r3) ← take_digits 2 0 r2;
      match r3 with
      | EmptyString =>
          if ((h <? 24) && (m <? 60))%Z
          then Some (Some (sign * (h * 3600 + m * 60))%Z)
          else None
      | _ => None
      end
  end.

Definition fromisoformat (s : string) : option dt :=
  '(y, s1) ← take_digits 4 0 s;
  s2 ← expect "-" s1;
  '(m, s3) ← take_digits 2 0 s2;
  s4 ← expect "-" s3;
  '(d, s5) ← take_digits 2 0 s4;
  s6 ← expect "T" s5;
  '(hh, s7) ← take_digits 2 0 s6;
  s8 ← expect ":" s7;
  '(mi, s9) ← take_digits 2 0 s8;
  s10 ← expect ":" s9;
  '(ss, s11) ← take_digits 2 0 s10;
  off ← read_offset s11;
  if ((1 <=? y) && (1 <=? m) && (m <=? 12) && (1 <=? d)
      && (d <=? days_in_month y m) && (hh <? 24) && (mi <? 60)
      && (ss <? 60))%Z
  then
    let wall := (days_from_civil y m d * 86400
                 + hh * 3600 + mi * 60 + ss)%Z in
    Some {| dt_text := s;
            dt_seconds := (wall - default 0 off)%Z;
            dt_aware := match off with Some _ => true | None => false end |}
  else None.

Definition dt_gt (a b : dt) : option bool :=
  if Bool.eqb (dt_aware a) (dt_aware b)
  then Some (dt_seconds b <? dt_seconds a)%Z
  else None.

(** [datetime.fromtimestamp] is defined for years 1 to 9999. *)
Definition fromtimestamp (q : Q) : option dt :=
  let n := Qfloor q in
  if ((-62135596800 <=? n) && (n <? 253402300800))%Z
  then Some {| dt_text := ""; dt_seconds := n; dt_aware := false |}
  else None.

(** The longest run of digits at the head of [s], most significant
    first. *)
Fixpoint read_digits (s : string) : list Z * string :=
  match s with
  | String c rest =>
      match digit_of c with
      | Some d => let '(ds, r) := read_digits rest in (d :: ds, r)
      | None => ([], s)
      end
  | EmptyString => ([], s)
  end.

Definition value_of (ds : list Z) : Z :=
  fold_left (fun acc d => acc * 10 + d)%Z ds 0%Z.

Definition read_sign (s : string) : Z * string :=
  match s with
  | String c rest =>
      if Ascii.eqb c "-" then ((-1)%Z, rest)
      else if Ascii.eqb c "+" then (1%Z, rest)
      else (1%Z, s)
  | EmptyString => (1%Z, s)
  end.

Definition int_of_str (s : string) : option Z :=
  let '(sign, r) := read_sign s in
  match read_digits r with
  | ((_ :: _) as ds, EmptyString) => Some (sign * value_of ds)%Z
  | _ => None
  end.

Definition float_of_str (s : string) : option pyfloat :=
  let '(sign, r) := read_sign s in
  match read_digits r with
  | ((_ :: _) as ds, EmptyString) =>
      Some (FNum (inject_Z (sign * value_of ds)))
  | ((_ :: _) as ds, String c rest) =>
      if Ascii.eqb c "." then
        match read_digits rest with
        | (fs, EmptyString) =>
            let scale := (10 ^ Z.of_nat (length fs))%Z in
            Some (FNum (Qred
              (Qmake (sign * (value_of ds * scale + value_of fs))
                     (Z.to_pos scale))))
        | _ => None
        end
      else None
  | _ => None
  end.

(** [str(z)]. *)
Definition str_of_Z (z : Z) : string :=
  NilZero.string_of_int (Z.to_int z).

(** The digits of [num / den] after the point, [fuel] of them at most. *)
Fixpoint frac_digits (fuel : nat) (num den : Z) : string :=
  match fuel with
  | O => EmptyString
  | S fuel' =>
      if (num =? 0)%Z then EmptyString
      else
        let d := (num * 10 / den)%Z in
        String (ascii_of_nat (Z.to_nat (48 + d)))
          (frac_digits fuel' (num * 10 mod den)%Z den)
  end.

(** [str(x)] for a float whose shortest representation is positional
    and finite. *)
Definition str_of_float (f : pyfloat) : string :=
  match f with
  | FNum q =>
      let n := Z.abs (Qnum q) in
      let d := Zpos (Qden q) in
      let frac := frac_digits 17 (n mod d) d in
      (if (Qnum q <? 0)%Z then "-" else "")
      +:+ str_of_Z (n / d) +:+ "."
      +:+ (match frac with EmptyString => "0" | _ => frac end)
  | FInf negative => if negative then "-inf" else "inf"
  | FNan => "nan"
  end.

(** [str(v)] for the scalars; no lemma formats a container. *)
Definition str_of (v : json) : string :=
  match v with
  | JNull => "None"
  | JBool b => if b then "True" else "False"
  | JInt z => str_of_Z z
  | JFloat f => str_of_float f
  | JStr s => s
  | JList _ => "[...]"
  | JDict _ => "{...}"
  end.

Definition b64_char (i : N) : ascii :=
  ascii_of_N
    (if (i <? 26)%N then 65 + i
     else if (i <? 52)%N then 97 + (i - 26)
     else if (i <? 62)%N then 48 + (i - 52)
     else if (i =? 62)%N then 43 else 47)%N.

Definition b64_pad : ascii := "=".

Fixpoint b64encode (s : string) : string :=
  match s with
  | EmptyString => EmptyString
  | String a EmptyString =>
      let n := (N_of_ascii a * 16)%N in
      String (b64_char (n / 64)) (String (b64_char (n mod 64))
        (String b64_pad (String b64_pad EmptyString)))
  | String a (String b EmptyString) =>
      let n := ((N_of_ascii a * 256 + N_of_ascii b) * 4)%N in
      String (b64_char (n / 4096)) (String (b64_char (n / 64 mod 64))
        (String (b64_char (n mod 64)) (String b64_pad EmptyString)))
  | String a (String b (String c rest)) =>
      let n := (N_of_ascii a * 65536 + N_of_ascii b * 256
                + N_of_ascii c)%N in
      String (b64_char (n / 262144)) (String (b64_char (n / 4096 mod 64))
        (String (b64_char (n / 64 mod 64)) (String (b64_char (n mod 64))
          (b64encode rest))))
  end.

Definition lib : pylib :=
  Build_pylib dt fromisoformat dt_text dt_gt fromtimestamp float_of_str
    int_of_str str_of b64encode.

(** A steady environment: the clock stands at [t], the token endpoint
    always answers [token], the forecast endpoint always answers
    [reply], nothing is cancelled, and the random delay is [minutes]. *)
Definition steady (t : Q) (now : dt) (token : result json)
    (reply : result response) (minutes : Z) : environment lib :=
  {| time_time := fun _ => t;
     datetime_now := fun _ => (now : datetime lib);
     session_post := fun _ => token;
     session_get := fun _ => reply;
     async_update_ha_state := fun _ => Ok tt;
     random_randrange := fun _ => minutes;
     asyncio_sleep := fun _ => Ok tt |}.
End Runtime.

(** ** Sample inputs *)
Module Sample.
Import Runtime.
Local Open Scope string_scope.

Definition cfg : config :=
  {| conf_latitude := JFloat (FNum (46948 # 1000));
     conf_longitude := JFloat (FNum (74474 # 10000));
     conf_name := Some "Bern";
     conf_consumer_key := "key";
     conf_consumer_secret := "secret" |}.

(** The clock: 2021-03-01 09:30 in Switzerland. *)
Definition clock : Q := 1614587400.
Definition now : dt :=
  {| dt_text := "2021-03-01T09:30:00+01:00";
     dt_seconds := 1614587400;
     dt_aware := true |}.

(** Token answers: with the provider's millisecond [issued_at], without
    [issued_at], and without [access_token]. *)
Definition token_full : json :=
  JDict [ ("access_token", JStr "tok"); ("expires_in", JInt 3600);
          ("issued_at", JInt 1614587400000) ].
Definition token_no_issued_at : json :=
  JDict [ ("access_token", JStr "tok"); ("expires_in", JInt 3600) ].
Definition token_no_access_token : json :=
  JDict [ ("expires_in", JInt 3600); ("issued_at", JInt 1614587400000) ].

(** An hourly record as the forecast endpoint documents it. *)
Definition hour_10 : json :=
  JDict [ ("local_date_time", JStr "2021-03-01T10:00:00+01:00");
          ("SYMBOL_CODE", JInt 1);
          ("TTT_C", JFloat (FNum (7 # 2)));
          ("FF_KMH", JInt 5);
          ("FX_KMH", JInt 12);
          ("DD_DEG", JInt 180);
          ("RRR_MM", JFloat (FNum (1 # 2)));
          ("PROBPCP_PERCENT", JInt 20) ].

(** An hourly record that also carries the fields [parse_forecast]
    reads. *)
Definition hour_11 : json :=
  JDict [ ("local_date_time", JStr "2021-03-01T11:00:00+01:00");
          ("SYMBOL_CODE", JInt 3);
          ("TTT_C", JInt 4);
          ("TX_C", JInt 5);
          ("TN_C", JInt 3);
          ("FF_KMH", JInt 6);
          ("FX_KMH", JInt 14);
          ("DD_DEG", JInt 225);
          ("RRR_MM", JInt 0);
          ("PROBPCP_PERCENT", JInt 10) ].

(** An hourly record without [TTT_C]. *)
Definition hour_no_temperature : json :=
  JDict [ ("local_date_time", JStr "2021-03-01T10:00:00+01:00");
          ("SYMBOL_CODE", JInt 20);
          ("FF_KMH", JInt 5);
          ("FX_KMH", JInt 12);
          ("DD_DEG", JInt 180);
          ("RRR_MM", JInt 0);
          ("PROBPCP_PERCENT", JInt 20) ].

Definition day (date : string) (tx : json) : json :=
  JDict [ ("local_date_time", JStr date);
          ("SYMBOL_CODE", JInt 20);
          ("TX_C", tx);
          ("TN_C", JInt 1);
          ("FF_KMH", JInt 8);
          ("FX_KMH", JInt 30);
          ("DD_DEG", JInt 180);
          ("RRR_MM", JFloat (FNum (1 # 2)));
          ("PROBPCP_PERCENT", JInt 80) ].

Definition day_1 : json := day "2021-03-01T00:00:00+01:00" (JInt 9).
Definition day_2 : json := day "2021-03-02T00:00:00+01:00" (JStr "n/a").
Definition day_3 : json := day "2021-03-03T00:00:00+01:00" (JInt 11).

Definition reply (hours days : list json) : result response :=
  Ok {| status := 200;
        resp_headers := [("x-ratelimit-available", "49");
                         ("x-ratelimit-reset-time", "1614639600000")];
        resp_json := Ok (JDict [("forecast",
                           JDict [("60minutes", JList hours);
                                  ("day", JList days)])]) |}.

Definition server_error : result response :=
  Ok {| status := 500;
        resp_headers := [];
        resp_json := Ok (JDict [("status", JStr "error")]) |}.

Definition world_of (token : json) (r : result response)
  : environment lib :=
  steady clock now (Ok token) r 57.

Definition fresh : world := __init__ lib cfg.

(** A good first cycle; the state it leaves has a token cached and a
    snapshot published. *)
Definition good_world : environment lib :=
  world_of token_full (reply [hour_10] [day_1]).
Definition settled : world := snd (__update lib good_world fresh).

(** The forecast endpoint answers 500. *)
Definition failing_world : environment lib :=
  world_of token_full server_error.

(** The current record lacks [TTT_C]. *)
Definition broken_world : environment lib :=
  world_of token_full (reply [hour_no_temperature] []).

(** Three daily records, the second with a temperature that is not a
    number, and two hourly records, the second of which parses. *)
Definition mixed_world : environment lib :=
  world_of token_full (reply [hour_10; hour_11] [day_1; day_2; day_3]).

(** One daily record and two hourly ones, the second of which parses. *)
Definition hourly_world : environment lib :=
  world_of token_full (reply [hour_10; hour_11] [day_1]).

(** The token endpoint leaves [issued_at] out, or [access_token]. *)
Definition undated_world : environment lib :=
  world_of token_no_issued_at (reply [hour_10] [day_1]).
Definition tokenless_world : environment lib :=
  world_of token_no_access_token (reply [hour_10] [day_1]).
End Sample.

(** ** Vocabulary of further statements *)

(** The condition names [SYMBOL_STATE_MAP] uses. *)
Definition CONDITIONS : list string :=
  [ "sunny"; "clear-night"; "partlycloudy"; "cloudy"; "fog"; "rainy";
    "pouring"; "snowy"; "snowy-rainy"; "lightning"; "lightning-rainy"
  ]%string.

(** The symbol codes 1 to 30 and -1 to -30. *)
Definition symbol_codes : list Z :=
  map Z.of_nat (seq 1 30) ++ map (fun n => (- Z.of_nat n)%Z) (seq 1 30).

(** How a record compares to [now]: after it, not after it, or reading
    or comparing its time raises. *)
Definition is_after (L : pylib) (now : datetime L) (f : json) : result bool :=
  rbind (rbind (getitem f "local_date_time") (parse_datetime L))
    (fun t => of_option (dt_gt L t now) TypeError).

(** More sample inputs. *)
Module SampleMore.
Import Runtime Sample.
Local Open Scope string_scope.

(** An hourly record that lies before the sample clock. *)
Definition hour_09 : json :=
  JDict [ ("local_date_time", JStr "2021-03-01T09:00:00+01:00");
          ("SYMBOL_CODE", JInt 2);
          ("TTT_C", JInt 2);
          ("FF_KMH", JInt 3);
          ("FX_KMH", JInt 9);
          ("DD_DEG", JInt 90);
          ("RRR_MM", JInt 0);
          ("PROBPCP_PERCENT", JInt 5) ].

(** The hourly array is empty. *)
Definition empty_world : environment lib :=
  world_of token_full (reply [] [day_1]).

(** Every hourly record lies in the past. *)
Definition stale_world : environment lib :=
  world_of token_full (reply [hour_09] [day_1]).

(** The forecast request is cancelled while it is awaited. *)
Definition cancelled_world : environment lib :=
  steady clock now (Ok token_full) (Raise CancelledError) 57.

(** The host refuses the new state. *)
Definition deaf_host_world : environment lib :=
  {| time_time := time_time good_world;
     datetime_now := datetime_now good_world;
     session_post := session_post good_world;
     session_get := session_get good_world;
     async_update_ha_state := fun _ => Raise ValueError;
     random_randrange := random_randrange good_world;
     asyncio_sleep := asyncio_sleep good_world |}.
End SampleMore.

(** The consumer key and secret stay. *)
Definition same_consumer (s s' : world) : Prop :=
  CONF_CONSUMER_KEY (data s') = CONF_CONSUMER_KEY (data s)
  /\ CONF_CONSUMER_SECRET (data s') = CONF_CONSUMER_SECRET (data s).

(** Token and expiry stay cached together. *)
Definition stays_cached_together (s s' : world) : Prop :=
  cached_together (data s) -> cached_together (data s').

(** No new call to [asyncio.sleep]. *)
Definition same_sleeps (s s' : world) : Prop :=
  forall d, In (EvSleep d) (trace s') -> In (EvSleep d) (trace s).
Definition not_sleep (e : event) : Prop := forall d, e <> EvSleep d.

(** * Proofs *)

(** ** Float arithmetic *)

Lemma Qfloor_unique (x : Q) (z : Z) :
  (inject_Z z <= x)%Q -> (x < inject_Z z + 1)%Q -> Qfloor x = z.
Proof.
  intros Hlo Hhi.
  pose proof (Qfloor_le x) as Hf.
  pose proof (Qlt_floor x) as Hc.
  rewrite inject_Z_plus in Hc.
  assert (inject_Z (Qfloor x) < inject_Z (z + 1))%Q as H1
    by (rewrite inject_Z_plus; change (inject_Z 1) with 1%Q; lra).
  assert (inject_Z z < inject_Z (Qfloor x + 1))%Q as H2
    by (rewrite inject_Z_plus; change (inject_Z 1) with 1%Q in *; lra).
  rewrite <- Zlt_Qlt in H1, H2. lia.
Qed.



Lemma py_round_comp (x y : Q) : (x == y)%Q -> py_round x = py_round y.
Proof.
  intros Heq. unfold py_round.
  rewrite (Qfloor_comp _ _ Heq).
  assert (x - inject_Z (Qfloor y) == y - inject_Z (Qfloor y))%Q as H
    by (rewrite Heq; reflexivity).
  rewrite (Qcompare_comp _ _ H _ _ (Qeq_refl _)). reflexivity.
Qed.


(** *** Powers of two *)

Lemma pow2_pos (e : Z) : (0 < 2 ^ e)%Q.
Proof. by apply Qpower_0_lt. Qed.

Lemma pow2_succ (e : Z) : (2 ^ (e + 1) == 2 * 2 ^ e)%Q.
Proof. rewrite Qpower_plus by discriminate. change (2 ^ 1)%Q with 2%Q. ring. Qed.

Lemma pow2_pred (e : Z) : (2 * 2 ^ (e - 1) == 2 ^ e)%Q.
Proof.
  rewrite <- pow2_succ. by replace (e - 1 + 1)%Z with e by lia.
Qed.

(** The rough position of the leading bit, from the sizes of numerator
    and denominator, is off by one at most. *)
Lemma Qlog2_rough (q : Q) :
  (0 < q)%Q ->
  let l := (Z.log2 (Qnum q) - Z.log2 (Zpos (Qden q)))%Z in
  (2 ^ (l - 1) < q)%Q /\ (q < 2 ^ (l + 1))%Q.
Proof.
  intros Hq l. destruct q as [n d]. cbn [Qnum Qden] in l.
  assert (0 < n)%Z as Hn by (unfold Qlt in Hq; simpl in Hq; lia).
  set (a := Z.log2 n) in *. set (b := Z.log2 (Z.pos d)) in *.
  assert (0 <= a)%Z as Ha by apply Z.log2_nonneg.
  assert (0 <= b)%Z as Hb by apply Z.log2_nonneg.
  destruct (Z.log2_spec n Hn) as [Hn1 Hn2]. fold a in Hn1, Hn2.
  destruct (Z.log2_spec (Z.pos d) eq_refl) as [Hd1 Hd2]. fold b in Hd1, Hd2.
  rewrite Z.pow_succ_r in Hn2, Hd2 by assumption.
  assert (2 ^ l == inject_Z (2 ^ a) / inject_Z (2 ^ b))%Q as Hl.
  { unfold l. rewrite Qpower_minus by discriminate.
    rewrite !Zpower_Qpower by assumption. reflexivity. }
  assert (0 < 2 ^ a)%Z as HA by (by apply Z.pow_pos_nonneg).
  assert (0 < 2 ^ b)%Z as HB by (by apply Z.pow_pos_nonneg).
  set (A := (2 ^ a)%Z) in *. set (B := (2 ^ b)%Z) in *.
  assert (inject_Z A / inject_Z B == A # Z.to_pos B)%Q as HAB.
  { rewrite (Qmake_Qdiv A (Z.to_pos B)).
    by rewrite (Z2Pos.id B HB). }
  split.
  - apply (Qmult_lt_l _ _ 2); [reflexivity |].
    rewrite pow2_pred, Hl, HAB.
    unfold Qlt, Qmult. cbn [Qnum Qden Pos.mul].
    rewrite ?Pos2Z.inj_mul, (Z2Pos.id B HB). nia.
  - rewrite pow2_succ, Hl, HAB.
    unfold Qlt, Qmult. cbn [Qnum Qden Pos.mul].
    rewrite ?Pos2Z.inj_mul, (Z2Pos.id B HB). nia.
Qed.

Lemma Qlog2_spec (q : Q) :
  (0 < q)%Q -> (2 ^ Qlog2 q <= q)%Q /\ (q < 2 ^ (Qlog2 q + 1))%Q.
Proof.
  intros Hq. destruct (Qlog2_rough q Hq) as [Hlo Hhi]. unfold Qlog2.
  set (l := (Z.log2 (Qnum q) - Z.log2 (Zpos (Qden q)))%Z) in *.
  destruct (Qle_bool (2 ^ l) q) eqn:E.
  - apply Qle_bool_iff in E. by split.
  - assert (~ (2 ^ l <= q)%Q) as Hn
      by (intros H; apply Qle_bool_iff in H; congruence).
    apply Qnot_le_lt in Hn.
    replace (l - 1 + 1)%Z with l by lia. split; [by apply Qlt_le_weak | done].
Qed.

Lemma Qlog2_unique (q : Q) (l : Z) :
  (2 ^ l <= q)%Q -> (q < 2 ^ (l + 1))%Q -> Qlog2 q = l.
Proof.
  intros Hlo Hhi.
  assert (0 < q)%Q as Hq
    by (eapply Qlt_le_trans; [apply (pow2_pos l) | exact Hlo]).
  destruct (Qlog2_spec q Hq) as [Hlo' Hhi'].
  assert (2 ^ l < 2 ^ (Qlog2 q + 1))%Q as H1
    by (eapply Qle_lt_trans; eassumption).
  assert (2 ^ Qlog2 q < 2 ^ (l + 1))%Q as H2
    by (eapply Qle_lt_trans; eassumption).
  apply Qpower_lt_compat_l_inv in H1; [| reflexivity].
  apply Qpower_lt_compat_l_inv in H2; [| reflexivity].
  lia.
Qed.

Lemma Qlog2_comp (q q' : Q) :
  (0 < q)%Q -> (q == q')%Q -> Qlog2 q = Qlog2 q'.
Proof.
  intros Hq Heq. symmetry.
  destruct (Qlog2_spec q Hq) as [Hlo Hhi].
  apply Qlog2_unique; by rewrite <- Heq.
Qed.


(** *** Rounding to binary64 *)

Lemma Qabs_pos_nonzero (q : Q) : ~ (q == 0)%Q -> (0 < Qabs q)%Q.
Proof.
  intros Hq. destruct (Qlt_le_dec 0 (Qabs q)) as [H | H]; [exact H |].
  exfalso. apply Hq.
  pose proof (Qabs_nonneg q) as Hn.
  assert (Qabs q == 0)%Q as H0 by lra.
  pose proof (Qle_Qabs q) as H1. pose proof (Qle_Qabs (- q)) as H2.
  rewrite Qabs_opp in H2. lra.
Qed.

Lemma b64_comp (q q' : Q) : (q == q')%Q -> (b64 q == b64 q')%Q.
Proof.
  intros Heq. unfold b64.
  destruct (Qeq_bool q 0) eqn:E.
  - apply Qeq_bool_iff in E.
    assert (Qeq_bool q' 0 = true) as -> by (apply Qeq_bool_iff; by rewrite <- Heq).
    reflexivity.
  - assert (~ (q == 0)%Q) as Hq by (by apply Qeq_bool_neq).
    assert (Qeq_bool q' 0 = false) as ->.
    { destruct (Qeq_bool q' 0) eqn:E'; [| reflexivity].
      apply Qeq_bool_iff in E'. exfalso. apply Hq. by rewrite Heq. }
    cbv zeta.
    assert (Qlog2 (Qabs q) = Qlog2 (Qabs q')) as <-.
    { apply Qlog2_comp; [by apply Qabs_pos_nonzero | by rewrite Heq]. }
    set (e := Z.max (Qlog2 (Qabs q) - 52) (-1074)).
    assert (py_round (q / 2 ^ e) = py_round (q' / 2 ^ e)) as <-
      by (apply py_round_comp; by rewrite Heq).
    reflexivity.
Qed.


(** Some roundings: 0.1 and 1/3 as the interpreter prints them in full,
    a tie that goes to the even mantissa on either side, and the
    subnormal range, where the last bit stands at 2^-1074. *)
Lemma b64_samples :
  (b64 (1 # 10) == 3602879701896397 # 2 ^ 55)%Q
  /\ (b64 (1 # 3) == 6004799503160661 # 2 ^ 54)%Q
  /\ (b64 (inject_Z (2 ^ 53 + 1)) == inject_Z (2 ^ 53))%Q
  /\ (b64 (inject_Z (2 ^ 53 + 3)) == inject_Z (2 ^ 53 + 4))%Q
  /\ (b64 (3 # 2 ^ 1076) == 1 # 2 ^ 1074)%Q
  /\ (b64 (1 # 2 ^ 1075) == 0)%Q
  /\ (b64 (5 # 2 ^ 1076) == 1 # 2 ^ 1074)%Q.
Proof. repeat split; vm_compute; reflexivity. Qed.

(** ** Bearing *)

(** *** Reduction and rounding in exact arithmetic *)

Lemma exact_mod_360_range (d : Q) :
  (0 <= exact_mod d 360)%Q /\ (exact_mod d 360 < 360)%Q.
Proof.
  unfold exact_mod.
  pose proof (Qfloor_le (d / 360)) as Hf.
  pose proof (Qlt_floor (d / 360)) as Hc.
  rewrite inject_Z_plus in Hc. change (inject_Z 1) with 1%Q in Hc.
  assert (d == 360 * (d / 360))%Q as Hd by (field).
  split; lra.
Qed.


Lemma exact_mod_comp (d d' y : Q) :
  (d == d')%Q -> (exact_mod d y == exact_mod d' y)%Q.
Proof.
  intros Heq. unfold exact_mod.
  assert (d / y == d' / y)%Q as H by (by rewrite Heq).
  rewrite (Qfloor_comp _ _ H). by rewrite Heq.
Qed.

Lemma nearest_sector_comp (d d' : Q) :
  (d == d')%Q -> nearest_sector d = nearest_sector d'.
Proof.
  intros Heq. unfold nearest_sector. apply py_round_comp.
  by rewrite (exact_mod_comp _ _ _ Heq).
Qed.


(** *** What the float operations do to the reduction *)


(** [fmod] and the exact reduction differ by a whole turn at most. *)
Lemma c_fmod_360_cases (d : Q) :
  (c_fmod d 360 == exact_mod d 360)%Q
  \/ (c_fmod d 360 < 0)%Q /\ (c_fmod d 360 + 360 == exact_mod d 360)%Q.
Proof.
  destruct (exact_mod_360_range d) as [Hlo Hhi].
  unfold c_fmod, exact_mod, Qtrunc in *.
  set (x := (d / 360)%Q) in *.
  destruct (Qle_bool 0 x) eqn:E; [by left |].
  pose proof (Qfloor_le x) as Hf. pose proof (Qlt_floor x) as Hc.
  pose proof (Qle_ceiling x) as Hc1. pose proof (Qceiling_lt x) as Hc2.
  rewrite inject_Z_plus in Hc. change (inject_Z 1) with 1%Q in Hc.
  assert (Qceiling x = Qfloor x \/ Qceiling x = (Qfloor x + 1)%Z) as [-> | ->].
  { assert (inject_Z (Qceiling x - 1) < inject_Z (Qfloor x + 1))%Q as H1
      by (rewrite inject_Z_plus; change (inject_Z 1) with 1%Q; lra).
    assert (inject_Z (Qfloor x) <= inject_Z (Qceiling x))%Q as H2 by lra.
    rewrite <- Zlt_Qlt in H1. rewrite <- Zle_Qle in H2. lia. }
  - by left.
  - right. rewrite inject_Z_plus. change (inject_Z 1) with 1%Q.
    split; [lra | ring].
Qed.

(** [%] gives the exact remainder, or the float nearest to it. *)
Lemma py_fmod_360_cases (d : Q) :
  (py_fmod d 360 == exact_mod d 360)%Q
  \/ (py_fmod d 360 == b64 (exact_mod d 360))%Q.
Proof.
  destruct (exact_mod_360_range d) as [Hlo Hhi].
  unfold py_fmod. cbv zeta.
  destruct (Qeq_bool (c_fmod d 360) 0) eqn:E.
  - apply Qeq_bool_iff in E. left.
    destruct (c_fmod_360_cases d) as [H | [H _]]; lra.
  - destruct (Qle_bool 0 (c_fmod d 360)) eqn:Epos; cbn.
    + apply Qle_bool_iff in Epos. left.
      destruct (c_fmod_360_cases d) as [H | [H _]]; [exact H | lra].
    + right. apply b64_comp.
      destruct (c_fmod_360_cases d) as [H | [_ H]]; [| exact H].
      exfalso. rewrite H in Epos.
      apply Qle_bool_iff in Hlo. congruence.
Qed.


Lemma CARDINAL_DEGREE_value : (_CARDINAL_DEGREE == 45 # 2)%Q.
Proof. vm_compute. reflexivity. Qed.


(** *** Multiples of a quarter degree *)

Lemma exact_mod_quarter (k : Z) :
  (exact_mod (k # 4) 360 == (k mod 1440) # 4)%Q.
Proof.
  unfold exact_mod.
  assert (Qfloor ((k # 4) / 360) = (k / 1440)%Z) as ->.
  { unfold Qdiv, Qmult, Qinv, Qfloor. simpl. f_equal; lia. }
  rewrite (Z.mod_eq k 1440) by lia.
  unfold Qeq, Qminus, Qplus, Qopp, Qmult, inject_Z. simpl. lia.
Qed.

(** On the 1440 quarter degrees of a turn neither the addition of [%]
    nor the division rounds anything that [round] would see. *)
Lemma quarter_degrees_checked :
  forallb
    (fun j =>
       Qeq_bool (b64 (Z.of_nat j # 4)) (Z.of_nat j # 4)
       && (py_round (b64 ((Z.of_nat j # 4) * (2 # 45)))
           =? py_round ((Z.of_nat j # 4) * (2 # 45)))%Z)
    (seq 0 1440)
  = true.
Proof. vm_compute. reflexivity. Qed.

Lemma quarter_degree_exact (j : Z) :
  (0 <= j < 1440)%Z ->
  (b64 (j # 4) == j # 4)%Q
  /\ py_round (b64 ((j # 4) * (2 # 45))) = py_round ((j # 4) * (2 # 45)).
Proof.
  intros Hj. pose proof quarter_degrees_checked as H.
  rewrite forallb_forall in H.
  specialize (H (Z.to_nat j)).
  rewrite Z2Nat.id in H by lia.
  destruct (andb_prop _ _ (H ltac:(apply in_seq; lia))) as [H1 H2].
  split; [by apply Qeq_bool_iff | by apply Z.eqb_eq].
Qed.

(** On a multiple of a quarter degree, whole degrees and sector
    boundaries among them, the float arithmetic gives the sector that
    exact arithmetic gives. *)
Lemma cardinal_index_quarter (d : Q) (k : Z) :
  (d == k # 4)%Q -> cardinal_index d = nearest_sector d.
Proof.
  intros Hd.
  assert (0 <= k mod 1440 < 1440)%Z as Hj by (apply Z.mod_pos_bound; lia).
  destruct (quarter_degree_exact _ Hj) as [Hexact Hround].
  assert (exact_mod d 360 == (k mod 1440) # 4)%Q as Hmod
    by (rewrite (exact_mod_comp _ _ _ Hd); apply exact_mod_quarter).
  assert (py_fmod d 360 == (k mod 1440) # 4)%Q as Hfmod.
  { destruct (py_fmod_360_cases d) as [-> | ->]; [exact Hmod |].
    by rewrite (b64_comp _ _ Hmod). }
  unfold cardinal_index, nearest_sector, py_truediv.
  change (inject_Z DEG_FULL_CIRCLE) with 360%Q.
  assert (py_fmod d 360 / _CARDINAL_DEGREE
          == ((k mod 1440) # 4) * (2 # 45))%Q as Ht
    by (rewrite CARDINAL_DEGREE_value, Hfmod; field).
  rewrite (py_round_comp _ _ (b64_comp _ _ Ht)), Hround.
  apply py_round_comp. rewrite Hmod. field.
Qed.







(** ** Reasoning about the monad *)

Lemma bind_ok {A B} (m : M A) (k : A -> M B) s b s' :
  bind m k s = (Ok b, s') ->
  exists a s1, m s = (Ok a, s1) /\ k a s1 = (Ok b, s').
Proof.
  unfold bind. destruct (m s) as [[a | e] s1]; [eauto | discriminate].
Qed.

Lemma bind_inv {A B} (m : M A) (k : A -> M B) s r s' :
  bind m k s = (r, s') ->
  (exists a s1, m s = (Ok a, s1) /\ k a s1 = (r, s'))
  \/ (exists e, m s = (Raise e, s') /\ r = Raise e).
Proof.
  unfold bind. destruct (m s) as [[a | e] s1]; [eauto |].
  intros [= <- <-]. eauto.
Qed.

Lemma bind_eq_ok {A B} (m : M A) (k : A -> M B) s a s1 :
  m s = (Ok a, s1) -> bind m k s = k a s1.
Proof. unfold bind. by intros ->. Qed.

Lemma bind_eq_raise {A B} (m : M A) (k : A -> M B) s e s1 :
  m s = (Raise e, s1) -> bind m k s = (Raise e, s1).
Proof. unfold bind. by intros ->. Qed.

Lemma bind_emit {B} (e : event) (k : unit -> M B) s :
  bind (emit e) k s = k tt (set_trace (e :: trace s) s).
Proof. reflexivity. Qed.

Lemma bind_gets {A B} (f : world -> A) (k : A -> M B) s :
  bind (gets f) k s = k (f s) s.
Proof. reflexivity. Qed.

Lemma bind_await {A B} (o : list event -> result A) (k : A -> M B) s :
  bind (await o) k s
  = match o (trace s) with
    | Ok a => k a s
    | Raise e => (Raise e, s)
    end.
Proof. reflexivity. Qed.

Lemma bind_assoc {A B C} (m : M A) (k : A -> M B) (h : B -> M C) s :
  bind (bind m k) h s = bind m (fun a => bind (k a) h) s.
Proof. unfold bind. by destruct (m s) as [[a | e] s1]. Qed.

Section Keeps.
Context (R : relation world) `{!PreOrder R}.

Lemma keeps_ret {A} (a : A) : keeps R (ret a).
Proof. intros s r s' [= _ <-]. reflexivity. Qed.

Lemma keeps_raise {A} e : keeps R (raise (A := A) e).
Proof. intros s r s' [= _ <-]. reflexivity. Qed.

Lemma keeps_lift {A} (x : result A) : keeps R (lift x).
Proof. intros s r s' [= _ <-]. reflexivity. Qed.

Lemma keeps_gets {A} (f : world -> A) : keeps R (gets f).
Proof. intros s r s' [= _ <-]. reflexivity. Qed.

Lemma keeps_bind {A B} (m : M A) (k : A -> M B) :
  keeps R m -> (forall a, keeps R (k a)) -> keeps R (bind m k).
Proof.
  intros Hm Hk s r s' H.
  destruct (bind_inv _ _ _ _ _ H) as [(a & s1 & H1 & H2) | (e & H1 & _)].
  - etransitivity; [exact (Hm _ _ _ H1) | exact (Hk _ _ _ _ H2)].
  - exact (Hm _ _ _ H1).
Qed.

Lemma keeps_try_except {A} (m : M A) (h : exn -> M A) :
  keeps R m -> (forall e, keeps R (h e)) -> keeps R (try_except m h).
Proof.
  intros Hm Hh s r s'. unfold try_except.
  destruct (m s) as [[a | e] s1] eqn:E.
  - intros [= <- <-]. exact (Hm _ _ _ E).
  - destruct (is_Exception e).
    + intros H. etransitivity; [exact (Hm _ _ _ E) | exact (Hh _ _ _ _ H)].
    + intros [= <- <-]. exact (Hm _ _ _ E).
Qed.

Lemma keeps_if {A} (b : bool) (m1 m2 : M A) :
  keeps R m1 -> keeps R m2 -> keeps R (if b then m1 else m2).
Proof. by destruct b. Qed.
End Keeps.

Create HintDb keeps discriminated.
#[export] Hint Resolve keeps_ret keeps_raise keeps_lift keeps_gets : keeps.

(** Walk down the syntax of a computation. *)
Ltac keeps_step :=
  lazymatch goal with
  | |- keeps _ (bind _ _) => refine (keeps_bind _ _ _ _ (fun _ => _))
  | |- keeps _ (try_except _ _) =>
      refine (keeps_try_except _ _ _ _ (fun _ => _))
  | |- keeps _ (if ?b then _ else _) => destruct b
  | |- keeps _ (match ?x with _ => _ end) => destruct x
  | |- keeps _ _ => solve [eauto with keeps typeclass_instances]
  end.
Ltac keeps_walk := cbv zeta; repeat keeps_step.

Section KeepsProgram.
Context (L : pylib) (env : environment L).
Context (R : relation world) `{HR : !PreOrder R}.
Context (allowed : event -> Prop) `{HT : !TraceBlind R allowed}.

Lemma keeps_emit e : allowed e -> keeps R (emit e).
Proof. intros He s r s' [= _ <-]. by apply trace_blind. Qed.

Lemma keeps_ask {A} (o : list event -> A) : keeps R (ask o).
Proof. apply keeps_gets; done. Qed.

Lemma keeps_await {A} (o : list event -> result A) : keeps R (await o).
Proof. intros s r s' [= _ <-]. reflexivity. Qed.

Hint Resolve keeps_emit keeps_ask keeps_await : keeps.

Context (Htime : allowed EvTime) (Hnow : allowed EvNow)
  (Hlog : forall lvl msg args, allowed (EvLog lvl msg args))
  (Hpost : forall url p h, allowed (EvPost url p h)).

Lemma keeps_time_now : keeps R (time_now L env).
Proof using HR HT Htime. unfold time_now. keeps_walk. Qed.

Lemma keeps_check d : keeps R (_check_client_credentials_response L env d).
Proof using HR HT Htime Hlog.
  pose proof keeps_time_now.
  unfold _check_client_credentials_response. keeps_walk.
Qed.

Lemma keeps_request_access_token key secret :
  keeps R (request_access_token L env key secret).
Proof using All.
  pose proof keeps_check.
  unfold request_access_token. keeps_walk.
Qed.

Lemma keeps_get_condition symbol_id :
  keeps R (get_condition_from_symbol symbol_id).
Proof using HR HT Hlog.
  unfold get_condition_from_symbol. keeps_walk.
Qed.

Lemma keeps_parse_forecast day : keeps R (parse_forecast L day).
Proof using HR HT Hlog.
  pose proof keeps_get_condition.
  unfold parse_forecast, float_at, int_at. keeps_walk.
Qed.
End KeepsProgram.

Section KeepsToken.
Context (L : pylib) (env : environment L).
Context (R : relation world) `{HR : !PreOrder R}.
Context (allowed : event -> Prop) `{HT : !TraceBlind R allowed}.
Context `{HD : !DataBlind R}.
Context (Htime : allowed EvTime) (Hnow : allowed EvNow)
  (Hlog : forall lvl msg args, allowed (EvLog lvl msg args))
  (Hpost : forall url p h, allowed (EvPost url p h)).

Hint Resolve keeps_emit keeps_ask keeps_await keeps_time_now
  keeps_request_access_token keeps_get_condition keeps_parse_forecast
  : keeps.

Lemma keeps_setitem f : keeps R (setitem f).
Proof. intros s r s' [= _ <-]. apply data_blind. Qed.

Hint Resolve keeps_setitem : keeps.

Lemma keeps_renew_api_key : keeps R (_renew_api_key L env).
Proof using All.
  unfold _renew_api_key, int_at. keeps_walk.
Qed.

Lemma keeps_get_api_key : keeps R (get_api_key L env).
Proof using All.
  pose proof keeps_renew_api_key.
  unfold get_api_key. keeps_walk.
Qed.

Lemma keeps_get url kwargs :
  (forall k, allowed (EvGet url k)) -> keeps R (__get L env url kwargs).
Proof using All.
  intros Hget. pose proof keeps_get_api_key.
  unfold __get. keeps_walk.
Qed.
End KeepsToken.

Section KeepsUpdate.
Context (L : pylib) (env : environment L).
Context (R : relation world) `{HR : !PreOrder R}.
Context (allowed : event -> Prop) `{HT : !TraceBlind R allowed}.
Context `{HD : !DataBlind R} `{HE : !EntityBlind R}.
Context (Htime : allowed EvTime) (Hnow : allowed EvNow)
  (Hlog : forall lvl msg args, allowed (EvLog lvl msg args))
  (Hpost : forall url p h, allowed (EvPost url p h))
  (Hget : forall k, allowed (EvGet (URL_FORECASTS "47.0274,8.3020") k)).

Hint Resolve keeps_emit keeps_ask keeps_await keeps_time_now
  keeps_get_condition keeps_parse_forecast keeps_get : keeps.

Lemma keeps_setattr f : keeps R (setattr f).
Proof. intros s r s' [= _ <-]. apply self_blind. Qed.

Lemma keeps_new_list : keeps R new_list.
Proof. intros s r s' [= _ <-]. apply store_blind. Qed.

Lemma keeps_list_append r x : keeps R (list_append r x).
Proof. intros s r0 s' [= _ <-]. apply store_blind. Qed.

Hint Resolve keeps_setattr keeps_new_list keeps_list_append : keeps.

Lemma keeps_parse_loop target raws : keeps R (parse_loop L target raws).
Proof using HR HT HE Hlog.
  induction raws as [| raw rest IH]; simpl; keeps_walk.
Qed.

Lemma keeps_update : keeps R (__update L env).
Proof using All.
  pose proof keeps_parse_loop.
  unfold __update, now_astimezone, int_at, float_at.
  keeps_walk.
Qed.
End KeepsUpdate.

(** ** What a computation leaves alone *)

#[export] Instance only_trace_preorder : PreOrder only_trace.
Proof.
  split.
  - intros s. by repeat split.
  - intros s1 s2 s3 (? & ? & ?) (? & ? & ?). repeat split; congruence.
Qed.

#[export] Instance only_trace_blind : TraceBlind only_trace any_event.
Proof. intros e s _. by repeat split. Qed.

#[export] Instance same_entity_preorder : PreOrder same_entity.
Proof.
  split.
  - intros s. by split.
  - intros s1 s2 s3 (? & ?) (? & ?). split; congruence.
Qed.

#[export] Instance same_entity_trace_blind : TraceBlind same_entity any_event.
Proof. intros e s _. by split. Qed.

#[export] Instance same_entity_data_blind : DataBlind same_entity.
Proof. intros d s. by split. Qed.

Lemma same_entity_published s s' : same_entity s s' -> published s' = published s.
Proof.
  intros [Hstore Hself].
  unfold published, forecast, hourly_forecast, wind_speed.
  by rewrite Hstore, Hself.
Qed.

Lemma get_api_key_same_entity L env s r s' :
  get_api_key L env s = (r, s') -> same_entity s s'.
Proof. by apply (keeps_get_api_key L env same_entity any_event). Qed.

Lemma get_same_entity L env url kwargs s r s' :
  __get L env url kwargs s = (r, s') -> same_entity s s'.
Proof. by apply (keeps_get L env same_entity any_event). Qed.

Lemma parse_forecast_only_trace L day s r s' :
  parse_forecast L day s = (r, s') -> only_trace s s'.
Proof. by apply (keeps_parse_forecast L only_trace any_event). Qed.

(** ** Parsing *)

Section Parsing.
Context (L : pylib).

Lemma getitem_Exception v k e : getitem v k = Raise e -> is_Exception e = true.
Proof.
  destruct v; simpl; try (intros [= <-]; reflexivity).
  destruct (assoc k items); simpl; [discriminate | intros [= <-]; reflexivity].
Qed.

Lemma py_float_Exception v e :
  py_float L v = Raise e -> is_Exception e = true.
Proof.
  destruct v as [| | z | | s | |]; simpl; try (intros [= <-]; reflexivity);
    try discriminate.
  - destruct (Z.abs z <? float_max_int)%Z;
      [discriminate | intros [= <-]; reflexivity].
  - destruct (float_of_str L s); simpl;
      [discriminate | intros [= <-]; reflexivity].
Qed.

Lemma py_int_Exception v e :
  py_int L v = Raise e -> is_Exception e = true.
Proof.
  destruct v as [| | | f | s | |]; simpl; try (intros [= <-]; reflexivity);
    try discriminate.
  - destruct f; try discriminate; intros [= <-]; reflexivity.
  - destruct (int_of_str L s); simpl;
      [discriminate | intros [= <-]; reflexivity].
Qed.

Lemma parse_datetime_Exception v e :
  parse_datetime L v = Raise e -> is_Exception e = true.
Proof.
  destruct v as [| | | | s | |]; simpl; try (intros [= <-]; reflexivity).
  destruct (fromisoformat L s); simpl;
    [discriminate | intros [= <-]; reflexivity].
Qed.

Lemma rbind_getitem_Exception {A} v k (f : json -> result A) e :
  (forall x e', f x = Raise e' -> is_Exception e' = true) ->
  rbind (getitem v k) f = Raise e -> is_Exception e = true.
Proof.
  intros Hf. destruct (getitem v k) as [x | e'] eqn:E; simpl.
  - apply Hf.
  - intros [= <-]. by eapply getitem_Exception.
Qed.

(** [parse_forecast] computes [parse_forecast_value] and touches the
    log only. *)
Lemma parse_forecast_value_eq day s :
  fst (parse_forecast L day s) = parse_forecast_value L day.
Proof.
  unfold parse_forecast, parse_forecast_value, float_at, int_at,
    get_condition_from_symbol, condition_of, bind, lift, ret, emit, modify.
  repeat match goal with
         | |- context [rbind (getitem day ?k) ?f] =>
             destruct (rbind (getitem day k) f); cbn [rbind fst];
             [| reflexivity]
         | |- context [zassoc ?z SYMBOL_STATE_MAP] =>
             destruct (zassoc z SYMBOL_STATE_MAP); cbn [rbind fst default]
         end.
  all: reflexivity.
Qed.

Lemma parse_forecast_Exception day e :
  parse_forecast_value L day = Raise e -> is_Exception e = true.
Proof.
  unfold parse_forecast_value.
  repeat match goal with
         | |- context [rbind (rbind (getitem day ?k) ?f) _] =>
             let E := fresh "E" in
             destruct (rbind (getitem day k) f) eqn:E; simpl;
             [| intros [= <-];
                revert E; apply rbind_getitem_Exception;
                first [apply py_float_Exception | apply py_int_Exception
                      | apply parse_datetime_Exception]]
         end.
  discriminate.
Qed.
End Parsing.

Section ParseLoop.
Context (L : pylib).

Lemma parsed_entries_cons raw rest :
  parsed_entries L (raw :: rest)
  = match parse_forecast_value L raw with
    | Ok entry => entry :: parsed_entries L rest
    | Raise _ => parsed_entries L rest
    end.
Proof.
  unfold parsed_entries. simpl.
  by destruct (parse_forecast_value L raw).
Qed.

Lemma parsed_entries_app raws1 raws2 :
  parsed_entries L (raws1 ++ raws2)
  = parsed_entries L raws1 ++ parsed_entries L raws2.
Proof. unfold parsed_entries. apply omap_app. Qed.

(** A parsing loop never raises; it appends the entries of the records
    that parse, in order, to its target list and to no other. *)
Lemma parse_loop_spec raws target s :
  exists s',
    parse_loop L target raws s = (Ok tt, s')
    /\ data s' = data s
    /\ self s' = self s
    /\ store s'
       = alter (fun l => l ++ parsed_entries L raws) target (store s).
Proof.
  revert s. induction raws as [| raw rest IH]; intros s.
  - exists s. repeat split; try reflexivity.
    symmetry. apply list_alter_id. intros l. apply app_nil_r.
  - cbn [parse_loop]. rewrite parsed_entries_cons.
    pose proof (parse_forecast_value_eq L raw s) as Hval.
    destruct (parse_forecast L raw s) as [[entry | e] s1] eqn:E;
      simpl in Hval; rewrite <- Hval.
    + destruct (parse_forecast_only_trace _ _ _ _ _ E) as (Hd & Hst & Hse).
      destruct (IH (set_store
                      (alter (fun l => l ++ [entry]) target (store s1)) s1))
        as (s' & Hrun & Hd' & Hse' & Hst').
      exists s'. split; [| repeat split].
      * unfold bind at 1, try_except, bind at 1. rewrite E.
        unfold ret at 1. unfold bind at 1, list_append, modify. exact Hrun.
      * rewrite Hd'. exact Hd.
      * rewrite Hse'. exact Hse.
      * rewrite Hst'. cbn [store set_store]. rewrite Hst.
        rewrite list_alter_alter_eq. apply list_alter_ext; [| done].
        intros l _. simpl. by rewrite <- app_assoc.
    + destruct (parse_forecast_only_trace _ _ _ _ _ E) as (Hd & Hst & Hse).
      pose proof (parse_forecast_Exception L raw e (eq_sym Hval)) as Hexc.
      set (s2 := set_trace
                   (EvLog "warning" "failed to parse forecast day: " [raw]
                    :: trace s1) s1).
      destruct (IH s2) as (s' & Hrun & Hd' & Hse' & Hst').
      exists s'. split; [| repeat split].
      * unfold bind at 1, try_except, bind at 1. rewrite E, Hexc.
        unfold bind at 1, emit, modify, ret. exact Hrun.
      * rewrite Hd'. exact Hd.
      * rewrite Hse'. exact Hse.
      * rewrite Hst'. cbn [store set_trace s2]. by rewrite Hst.
Qed.
End ParseLoop.

(** ** The update cycle *)

(** Take the first step of a successful run apart. *)
Ltac prim_unfold H :=
  unfold gets, lift, setattr, setitem, modify, emit, ask, await, ret,
    new_list, list_append, int_at, float_at in H.
(** [gets], [ask], [new_list]: the value and the world are determined. *)
Ltac inv_gets H := prim_unfold H; injection H as <- <-.
(** [lift], [await]: the world is unchanged, the outcome is recorded. *)
Ltac inv_lift H E := prim_unfold H; injection H as E <-.
(** [modify] and its kin: only the world matters. *)
Ltac inv_set H := prim_unfold H; injection H as _ <-.
Ltac step_ok H x sx Hx :=
  apply bind_ok in H as (x & sx & Hx & H).

Lemma alter_at_length {A} (f : A -> A) (l : list A) (x : A) (k : list A) :
  alter f (length l) (l ++ x :: k) = l ++ f x :: k.
Proof.
  rewrite <- (Nat.add_0_r (length l)) at 1. by rewrite alter_app_r.
Qed.

Section Update.
Context (L : pylib) (env : environment L).

Lemma get_condition_spec symbol_id s :
  exists t,
    get_condition_from_symbol symbol_id s
    = (Ok (condition_of symbol_id), set_trace t s).
Proof.
  unfold get_condition_from_symbol, condition_of.
  destruct (zassoc symbol_id SYMBOL_STATE_MAP).
  - exists (trace s). by destruct s.
  - eexists. reflexivity.
Qed.

Lemma update_get_raise s e s1 :
  __get L env forecast_url [] s = (Raise e, s1) ->
  __update L env s = (Raise e, s1).
Proof.
  intros Hget. unfold __update. cbv zeta.
  unfold bind at 1, gets at 1.
  by rewrite (bind_eq_raise _ _ _ _ _ Hget).
Qed.

(** A successful cycle, spelled out. *)
Lemma update_ok s s' :
  __update L env s = (Ok tt, s') ->
  exists body s1 rec symbol_id temperature mean_wind gust deg cardinal
         precipitation rain_probability days hours,
    __get L env forecast_url [] s = (Ok body, s1)
    /\ current_record L (datetime_now env (EvNow :: trace s1)) body = Ok rec
    /\ rbind (getitem rec "SYMBOL_CODE") (py_int L) = Ok symbol_id
    /\ rbind (getitem rec "TTT_C") (py_float L) = Ok temperature
    /\ rbind (getitem rec "FF_KMH") (py_float L) = Ok mean_wind
    /\ rbind (getitem rec "FX_KMH") (py_float L) = Ok gust
    /\ rbind (getitem rec "DD_DEG") (py_float L) = Ok deg
    /\ deg_to_cardinal deg = Ok cardinal
    /\ rbind (getitem rec "RRR_MM") (py_float L) = Ok precipitation
    /\ rbind (getitem rec "PROBPCP_PERCENT") (py_float L)
       = Ok rain_probability
    /\ rbind (rbind (getitem body "forecast") (fun f => getitem f "day"))
         py_iter = Ok days
    /\ rbind (rbind (getitem body "forecast")
                (fun f => getitem f "60minutes")) py_iter = Ok hours
    /\ data s' = data s1
    /\ store s'
       = store s ++ [parsed_entries L days ++ parsed_entries L hours; []]
    /\ self s'
       = {| _default_params := _default_params (self s);
            _forecast := length (store s);
            _hourly_forecast := S (length (store s));
            _state := Some (condition_of symbol_id);
            _temperature := Some temperature;
            _wind_speed := Some gust;
            _wind_bearing := Some cardinal;
            _state_attrs :=
              <["rain_probability" := JFloat rain_probability]>
                (<["precipitation" := JFloat precipitation]>
                   (<["symbol_id" := JInt symbol_id]>
                      (<["wind_direction" := JFloat deg]>
                         (_state_attrs (self s))))) |}.
Proof.
  intros H. unfold __update in H. cbv zeta in H.
  step_ok H params s0 Hp. inv_gets Hp.
  step_ok H body s1 Hget.
  destruct (get_same_entity _ _ _ _ _ _ _ Hget) as [Hstore1 Hself1].
  step_ok H hourlyforecast s2 Hh. inv_lift Hh Ehourly.
  step_ok H now s2 Hn. unfold now_astimezone in Hn.
  step_ok Hn u s3 Hn1. inv_set Hn1. inv_gets Hn.
  step_ok H candidates s2 Hc. inv_lift Hc Ecands.
  step_ok H found s2 Hf. inv_lift Hf Efound.
  step_ok H forecastnow s2 Hrec.
  assert (current_record L (datetime_now env (EvNow :: trace s1)) body
          = Ok forecastnow
          /\ only_trace (set_trace (EvNow :: trace s1) s1) s2)
    as [Hcur Hs2].
  { unfold current_record. rewrite Ehourly. cbn [rbind]. rewrite Ecands.
    cbn [rbind]. cbn [trace set_trace] in Efound. rewrite Efound.
    cbn [rbind].
    destruct found as [f |].
    - inv_gets Hrec. split; [reflexivity | by repeat split].
    - step_ok Hrec u0 s3 He. inv_set He. inv_lift Hrec Elast.
      split; [assumption | by repeat split]. }
  destruct Hs2 as (Hd2 & Hst2 & Hse2). cbn [data store self set_trace] in *.
  step_ok H symbol_id s3 Hsym. inv_lift Hsym Esym.
  step_ok H cond s3 Hcond.
  destruct (get_condition_spec symbol_id s2) as [t Hcond'].
  rewrite Hcond' in Hcond. injection Hcond as <- <-.
  step_ok H u0 s3 Hset. inv_set Hset.
  step_ok H temperature s3 Ht. inv_lift Ht Etemp.
  step_ok H u' s3 Hset. inv_set Hset.
  step_ok H mean_wind s3 Hm. inv_lift Hm Emean.
  step_ok H u'' s3 Hset. inv_set Hset.
  step_ok H gust s3 Hg. inv_lift Hg Egust.
  step_ok H u3 s3 Hset. inv_set Hset.
  step_ok H deg s3 Hdeg. inv_lift Hdeg Edeg.
  step_ok H cardinal s3 Hcard. inv_lift Hcard Ecard.
  step_ok H u4 s3 Hset. inv_set Hset.
  step_ok H precipitation s3 Hpr. inv_lift Hpr Eprecip.
  step_ok H rain_probability s3 Hrp. inv_lift Hrp Eprob.
  step_ok H u5 s3 Hset. inv_set Hset.
  step_ok H rf s3 Hnew. inv_gets Hnew.
  step_ok H days s3 Hdays. inv_lift Hdays Edays.
  step_ok H u6 s3 Hloop1.
  match type of Hloop1 with
  | parse_loop _ ?r ?ds ?w = _ =>
      destruct (parse_loop_spec L ds r w) as (w1 & Hrun1 & Hd1 & Hse1 & Hst1)
  end.
  rewrite Hrun1 in Hloop1. injection Hloop1 as _ <-.
  step_ok H u7 s3 Hset. inv_set Hset.
  step_ok H rh s3 Hnew. inv_gets Hnew.
  step_ok H hours s3 Hhours. inv_lift Hhours Ehours.
  step_ok H u8 s3 Hloop2.
  match type of Hloop2 with
  | parse_loop _ ?r ?ds ?w = _ =>
      destruct (parse_loop_spec L ds r w) as (w2 & Hrun2 & Hd2' & Hse2' & Hst2')
  end.
  rewrite Hrun2 in Hloop2. injection Hloop2 as _ <-.
  prim_unfold H. injection H as <-.
  exists body, s1, forecastnow, symbol_id, temperature, mean_wind, gust,
    deg, cardinal, precipitation, rain_probability, days, hours.
  repeat (split; [assumption |]).
  cbn [data store self set_trace set_self set_store] in *.
  split; [congruence |].
  assert (store w1 = store s ++ [parsed_entries L days]) as Hw1.
  { rewrite Hst1, Hst2, Hstore1. by rewrite alter_at_length. }
  split.
  - rewrite Hst2', Hw1, Hst2, Hstore1. rewrite <- app_assoc. cbn [app].
    rewrite alter_at_length. reflexivity.
  - rewrite Hse2', Hse1, Hw1, Hse2, Hself1, Hst2, Hstore1.
    rewrite length_app. cbn [length].
    unfold assign_hourly_forecast, assign_forecast, assign_state_attrs,
      assign_wind_bearing, assign_wind_speed, assign_temperature,
      assign_state.
    cbn. f_equal; lia.
Qed.
End Update.

Section UpdateFailure.
Context (L : pylib) (env : environment L).

Lemma get_raises_with_token url kwargs s e s1 :
  get_api_key L env s = (Raise e, s1) ->
  __get L env url kwargs s = (Raise e, s1).
Proof. intros H. unfold __get. by rewrite (bind_eq_raise _ _ _ _ _ H). Qed.

(** A status from 400 on makes [__get] raise: what [resp.json()] raises
    if it does, the error of [raise_for_status] otherwise. *)
Lemma get_raises_on_status s tok s0 resp :
  get_api_key L env s = (Ok tok, s0) ->
  session_get env
    (EvGet forecast_url
       [("headers", [("Authorization", "Bearer " +:+ py_str L tok)])]
     :: trace s0) = Ok resp ->
  (400 <= status resp)%Z ->
  exists e s1, __get L env forecast_url [] s = (Raise e, s1).
Proof.
  intros Hkey Hresp Hstatus. unfold __get.
  rewrite (bind_eq_ok _ _ _ _ _ Hkey). cbv zeta.
  unfold weak_update. cbn [assoc dict_set].
  unfold bind at 1, emit at 1, modify at 1.
  unfold bind at 1, await at 1. cbn [trace set_trace]. rewrite Hresp.
  assert ((status resp =? HTTP_OK)%Z = false) as ->
    by (apply Z.eqb_neq; unfold HTTP_OK; lia).
  unfold bind at 1, ret at 1.
  unfold bind at 1, lift at 1.
  destruct (resp_json resp) as [body | e]; [| eauto].
  assert ((400 <=? status resp)%Z = true) as -> by (by apply Z.leb_le).
  unfold bind at 1, raise. eauto.
Qed.

(** A failure up to the coercion of [SYMBOL_CODE] comes before the
    first assignment. *)
Lemma update_symbol_raise s body s1 e :
  __get L env forecast_url [] s = (Ok body, s1) ->
  rbind (current_record L (datetime_now env (EvNow :: trace s1)) body)
    (fun rec => rbind (getitem rec "SYMBOL_CODE") (py_int L)) = Raise e ->
  exists s', __update L env s = (Raise e, s') /\ only_trace s1 s'.
Proof.
  intros Hget Hfail. unfold __update. cbv zeta.
  unfold bind at 1, gets at 1.
  rewrite (bind_eq_ok _ _ _ _ _ Hget).
  unfold current_record in Hfail.
  unfold bind at 1, lift at 1.
  destruct (rbind (getitem body "forecast") _) as [hourly | e0];
    cbn [rbind] in Hfail.
  2: { injection Hfail as ->. eexists. split; [reflexivity | by repeat split]. }
  unfold bind at 1, now_astimezone, bind at 1, emit at 1, modify at 1,
    ask, gets at 1. cbn [trace set_trace].
  unfold bind at 1, lift at 1.
  destruct (py_iter hourly) as [candidates | e0]; cbn [rbind] in Hfail.
  2: { injection Hfail as ->. eexists. split; [reflexivity | by repeat split]. }
  unfold bind at 1, lift at 1.
  destruct (next_future L _ candidates) as [found | e0];
    cbn [rbind] in Hfail.
  2: { injection Hfail as ->. eexists. split; [reflexivity | by repeat split]. }
  unfold bind at 1.
  destruct found as [f |].
  - unfold ret at 1. cbn [rbind] in Hfail.
    unfold bind at 1, int_at at 1, lift at 1. rewrite Hfail.
    eexists. split; [reflexivity | by repeat split].
  - unfold bind at 1, emit at 1, modify at 1, lift at 1.
    destruct (getitem_last hourly) as [f | e0]; cbn [rbind] in Hfail.
    2: { injection Hfail as ->. eexists.
         split; [reflexivity | by repeat split]. }
    unfold bind at 1, int_at at 1, lift at 1. rewrite Hfail.
    eexists. split; [reflexivity | by repeat split].
Qed.

(** The loop swallows every [Exception] of a cycle and goes to sleep. *)
Lemma loop_turn_swallows s e s1 :
  __update L env s = (Raise e, s1) ->
  is_Exception e = true ->
  exists t,
    __update_loop_turn L env s = (asyncio_sleep env t, set_trace t s1).
Proof.
  intros Hup Hexc. unfold __update_loop_turn.
  unfold bind at 1. rewrite Hup.
  destruct e; try discriminate Hexc;
    (unfold emit, modify, bind, ask, gets, await; cbn [trace set_trace];
     eexists; reflexivity).
Qed.

Lemma published_set_trace t s : published (set_trace t s) = published s.
Proof. reflexivity. Qed.

(** After a successful cycle the daily list holds the daily entries
    followed by the hourly ones, and the hourly list is empty. *)
Lemma update_forecasts s s' :
  __update L env s = (Ok tt, s') ->
  exists body s1 days hours,
    __get L env forecast_url [] s = (Ok body, s1)
    /\ rbind (rbind (getitem body "forecast") (fun f => getitem f "day"))
         py_iter = Ok days
    /\ rbind (rbind (getitem body "forecast")
                (fun f => getitem f "60minutes")) py_iter = Ok hours
    /\ forecast s' = parsed_entries L days ++ parsed_entries L hours
    /\ hourly_forecast s' = [].
Proof.
  intros H.
  destruct (update_ok L env s s' H)
    as (body & s1 & rec & symbol_id & temperature & mean_wind & gust & deg
        & cardinal & precipitation & rain_probability & days & hours
        & Hget & _ & _ & _ & _ & _ & _ & _ & _ & _ & Hdays & Hhours
        & _ & Hstore & Hself).
  exists body, s1, days, hours. repeat (split; [assumption |]).
  unfold forecast, hourly_forecast. rewrite Hstore, Hself.
  cbn [_forecast _hourly_forecast]. split.
  - by rewrite list_lookup_middle.
  - rewrite lookup_app_r by lia.
    replace (S (length (store s)) - length (store s)) with 1 by lia.
    reflexivity.
Qed.
End UpdateFailure.

#[export] Instance asks_only_preorder url : PreOrder (asks_only url).
Proof.
  split.
  - intros s u kw H. by left.
  - intros s1 s2 s3 H12 H23 u kw H.
    destruct (H23 u kw H) as [H2 | ->]; [by apply H12 | by right].
Qed.
#[export] Instance asks_only_trace_blind url :
  TraceBlind (asks_only url) (get_to url).
Proof.
  intros e s He u kw [-> | H]; [right; by eapply He | by left].
Qed.
#[export] Instance asks_only_data_blind url : DataBlind (asks_only url).
Proof. intros d s u kw H. by left. Qed.
#[export] Instance asks_only_entity_blind url : EntityBlind (asks_only url).
Proof. split; intros x s u kw H; by left. Qed.

Lemma update_asks_fixed_url L env s r s' :
  __update L env s = (r, s') -> asks_only forecast_url s s'.
Proof.
  apply (keeps_update L env (asks_only forecast_url) (get_to forecast_url));
    try (intros; intros u kw; discriminate).
  intros k u kw [= <- _]. reflexivity.
Qed.

(** ** The token manager *)

#[export] Instance same_posts_preorder : PreOrder same_posts.
Proof.
  split; [by intros s | intros s1 s2 s3; unfold same_posts; congruence].
Qed.
#[export] Instance same_posts_trace_blind : TraceBlind same_posts no_post.
Proof.
  intros e s He. unfold same_posts, count_posts. cbn. by rewrite He.
Qed.
#[export] Instance same_posts_data_blind : DataBlind same_posts.
Proof. by intros d s. Qed.

#[export] Instance same_gets_preorder : PreOrder same_gets.
Proof.
  split; [by intros s | intros s1 s2 s3; unfold same_gets; congruence].
Qed.
#[export] Instance same_gets_trace_blind : TraceBlind same_gets no_get.
Proof.
  intros e s He. unfold same_gets, count_gets. cbn. by rewrite He.
Qed.
#[export] Instance same_gets_data_blind : DataBlind same_gets.
Proof. by intros d s. Qed.

Section Token.
Context (L : pylib) (env : environment L).

(** After a successful check the three keys are there. *)
Lemma check_ok d d' s s' :
  _check_client_credentials_response L env d s = (Ok d', s') ->
  exists items,
    d' = JDict items
    /\ has_key "issued_at" items = true
    /\ has_key "expires_in" items = true
    /\ has_key "access_token" items = true.
Proof.
  unfold _check_client_credentials_response.
  destruct d as [| | | | | | items]; try discriminate.
  intros H. step_ok H items' s1 Hitems.
  destruct (List.filter _ EXPECTED_KEYS) as [| k ks] eqn:Hmiss.
  - inv_gets H. exists items'. split; [reflexivity |].
    cbn in Hmiss.
    destruct (has_key "issued_at" items'); [| discriminate Hmiss].
    destruct (has_key "expires_in" items'); [| discriminate Hmiss].
    destruct (has_key "access_token" items'); [| discriminate Hmiss].
    done.
  - step_ok H u s2 He. discriminate H.
Qed.

Lemma assoc_dict_set {A} k k' (v : A) items :
  assoc k (dict_set k' v items)
  = if String.eqb k k' then Some v else assoc k items.
Proof.
  induction items as [| [k0 v0] rest IH]; cbn.
  - by destruct (String.eqb k k').
  - destruct (String.eqb k' k0) eqn:E0; cbn.
    + apply String.eqb_eq in E0 as <-.
      by destruct (String.eqb k k').
    + destruct (String.eqb k k0) eqn:E1; [| exact IH].
      destruct (String.eqb k k') eqn:E2; [| reflexivity].
      apply String.eqb_eq in E1 as <-. apply String.eqb_eq in E2 as <-.
      by rewrite String.eqb_refl in E0.
Qed.

Lemma missing_keys (items : list (string * json)) :
  assoc "access_token" items = None \/ assoc "expires_in" items = None ->
  List.filter (fun k => negb (has_key k items)) EXPECTED_KEYS <> [].
Proof.
  intros Hmissing. cbn. unfold has_key.
  destruct (assoc "issued_at" items);
    destruct Hmissing as [-> | ->]; cbn;
    try destruct (assoc "expires_in" items); cbn; discriminate.
Qed.

(** A response that lacks [access_token] or [expires_in] is refused,
    and nothing but the trace has moved. *)
Lemma check_missing items s :
  assoc "access_token" items = None \/ assoc "expires_in" items = None ->
  exists s',
    _check_client_credentials_response L env (JDict items) s
    = (Raise ValueError, s')
    /\ only_trace s s'.
Proof.
  intros Hmissing.
  unfold _check_client_credentials_response.
  destruct (has_key "issued_at" items) eqn:Hissued.
  - pose proof (missing_keys items Hmissing) as Hne.
    unfold bind at 1, ret at 1.
    destruct (List.filter _ EXPECTED_KEYS) as [| k ks]; [done |].
    eexists. split; [reflexivity | by repeat split].
  - unfold bind at 1, bind at 1, time_now, bind at 1, emit, modify, ask,
      gets, ret. cbn [trace set_trace].
    match goal with
    | |- context [dict_set ?k ?v items] =>
        pose proof (missing_keys (dict_set k v items)) as Hne
    end.
    destruct (List.filter _ EXPECTED_KEYS) as [| k ks].
    + exfalso. apply Hne; [| reflexivity].
      rewrite !assoc_dict_set. exact Hmissing.
    + eexists. split; [reflexivity | by repeat split].
Qed.

Lemma request_access_token_posts_once key secret s r s' :
  request_access_token L env key secret s = (r, s') ->
  count_posts (trace s') = S (count_posts (trace s)).
Proof.
  unfold request_access_token. cbv zeta.
  unfold bind at 1, emit at 1, modify at 1. intros H.
  assert (same_posts
            (set_trace
               (EvPost URL_OAUTH [("grant_type", "client_credentials")]
                  [("Authorization",
                    "Basic " +:+ b64encode L (key +:+ ":" +:+ secret))]
                :: trace s) s) s') as Hsame.
  { revert H. generalize (set_trace
               (EvPost URL_OAUTH [("grant_type", "client_credentials")]
                  [("Authorization",
                    "Basic " +:+ b64encode L (key +:+ ":" +:+ secret))]
                :: trace s) s).
    intros w H. revert w r s' H.
    change (keeps same_posts
              (bind (await (session_post env))
                 (fun d => _check_client_credentials_response L env d))).
    refine (keeps_bind _ _ _ _ (fun _ => _)).
    - apply keeps_await; apply _.
    - by apply (keeps_check L env same_posts no_post). }
  unfold same_posts in Hsame. rewrite Hsame. reflexivity.
Qed.

Lemma keeps_store_token token_data :
  keeps same_posts
    (try_except
       (bind (int_at L token_data "expires_in") (fun expires_in =>
        bind (int_at L token_data "issued_at") (fun issued_at =>
        bind (setitem (assign_expires_at
                         (expires_in + issued_at / 1000)%Z)) (fun _ =>
        bind (lift (getitem token_data "access_token")) (fun tok =>
        setitem (assign_api_key tok))))))
       (fun e =>
          bind (emit (EvLog "error"
                        "exception while parsing access token response: %s"
                        [token_data]))
            (fun _ => raise e))).
Proof.
  pose proof (keeps_setitem same_posts).
  unfold int_at. keeps_walk.
  apply (keeps_emit same_posts no_post). reflexivity.
Qed.

(** [_renew_api_key] calls the token endpoint exactly once. *)
Lemma renew_posts_once s r s' :
  _renew_api_key L env s = (r, s') ->
  count_posts (trace s') = S (count_posts (trace s)).
Proof.
  unfold _renew_api_key. intros H.
  unfold bind at 1, gets at 1, bind at 1, gets at 1 in H.
  apply bind_inv in H as [(d & s1 & Hreq & H) | (e & Hreq & _)].
  - apply request_access_token_posts_once in Hreq.
    apply keeps_store_token in H. unfold same_posts in H. congruence.
  - by apply request_access_token_posts_once in Hreq.
Qed.

Lemma request_access_token_only_trace key secret s r s' :
  request_access_token L env key secret s = (r, s') -> only_trace s s'.
Proof. by apply (keeps_request_access_token L env only_trace any_event). Qed.

Lemma request_access_token_ok key secret s d s' :
  request_access_token L env key secret s = (Ok d, s') ->
  exists items,
    d = JDict items
    /\ has_key "issued_at" items = true
    /\ has_key "expires_in" items = true
    /\ has_key "access_token" items = true.
Proof.
  unfold request_access_token. cbv zeta. intros H.
  step_ok H u s1 He. step_ok H d0 s2 Ha.
  by eapply check_ok.
Qed.

(** The credentials after a renewal: untouched, or both entries new. *)
Lemma renew_data s r s' :
  _renew_api_key L env s = (r, s') ->
  (is_ok r = false /\ data s' = data s)
  \/ (exists z tok,
        r = Ok tt /\ data s' = assign_api_key tok (assign_expires_at z (data s))).
Proof.
  unfold _renew_api_key. intros H.
  unfold bind at 1, gets at 1, bind at 1, gets at 1 in H.
  apply bind_inv in H as [(d & s1 & Hreq & H) | (e & Hreq & ->)].
  2: { left. split; [reflexivity |].
       by destruct (request_access_token_only_trace _ _ _ _ _ Hreq). }
  destruct (request_access_token_only_trace _ _ _ _ _ Hreq) as (Hd & _ & _).
  destruct (request_access_token_ok _ _ _ _ _ Hreq)
    as (items & -> & _ & _ & Htok).
  unfold has_key in Htok.
  destruct (assoc "access_token" items) as [tok |] eqn:Etok; [| done].
  unfold try_except, int_at, bind, lift, setitem, modify, emit, raise in H.
  cbn [getitem] in H. rewrite Etok in H. cbn [of_option] in H.
  destruct (rbind (of_option (assoc "expires_in" items) KeyError) (py_int L))
    as [expires_in | e1].
  - destruct (rbind (of_option (assoc "issued_at" items) KeyError)
                (py_int L)) as [issued_at | e2].
    + injection H as <- <-. right. eexists _, tok.
      split; [reflexivity |]. cbn [data set_data]. by rewrite Hd.
    + left. destruct (is_Exception e2); injection H as <- <-;
        (split; [reflexivity | exact Hd]).
  - left. destruct (is_Exception e1); injection H as <- <-;
      (split; [reflexivity | exact Hd]).
Qed.

(** A renewal against an endpoint that leaves out [access_token] or
    [expires_in] raises the [ValueError] of the check and stores
    nothing. *)
Lemma renew_missing items s :
  (forall t, session_post env t = Ok (JDict items)) ->
  assoc "access_token" items = None \/ assoc "expires_in" items = None ->
  exists s1,
    _renew_api_key L env s = (Raise ValueError, s1) /\ data s1 = data s.
Proof.
  intros Hpost Hmissing. unfold _renew_api_key.
  rewrite !bind_gets. unfold request_access_token. cbv zeta.
  rewrite !bind_assoc, bind_emit. cbv beta.
  rewrite bind_assoc, bind_await, Hpost.
  match goal with
  | |- context [bind (_check_client_credentials_response L env _) _ ?w] =>
      destruct (check_missing items w Hmissing)
        as (s1 & Hcheck & Hd & _ & _)
  end.
  exists s1. rewrite (bind_eq_raise _ _ _ _ _ Hcheck).
  split; [reflexivity | exact Hd].
Qed.

(** What [get_api_key] does when the cached token is still good. *)
Lemma get_api_key_cached s :
  needs_renewal L env s = false ->
  get_api_key L env s
  = (of_option (ATTR_API_KEY (data s)) KeyError,
     set_trace (EvTime :: trace s) s).
Proof.
  unfold needs_renewal, get_api_key.
  unfold bind at 1, gets at 1.
  destruct (ATTR_EXPIRES_AT (data s)) as [expires_at |]; [| discriminate].
  intros Hfresh.
  unfold bind, time_now, bind, emit, modify, ask, gets, ret, lift.
  cbn [trace set_trace data]. by rewrite Hfresh.
Qed.

(** What it does otherwise: it logs, renews, and reads the key. *)
Lemma get_api_key_renewing s :
  needs_renewal L env s = true ->
  exists t,
    count_posts t = count_posts (trace s)
    /\ get_api_key L env s
       = bind (_renew_api_key L env)
           (fun _ => bind (gets (fun s => ATTR_API_KEY (data s)))
                       (fun key => lift (of_option key KeyError)))
           (set_trace t s).
Proof.
  unfold needs_renewal, get_api_key.
  unfold bind at 1, gets at 1.
  destruct (ATTR_EXPIRES_AT (data s)) as [expires_at |].
  - intros Hexpired. eexists. split; [| shelve].
    Unshelve.
    3: { unfold bind at 1, bind at 1, time_now, bind at 1, emit at 1,
           modify at 1, ask, gets at 1, ret at 1.
         cbn [trace set_trace]. rewrite Hexpired.
         unfold bind at 1, bind at 1, emit at 1, modify at 1.
         cbn [trace set_trace]. reflexivity. }
    reflexivity.
  - intros _. eexists. split; [| shelve].
    Unshelve.
    3: { unfold bind at 1, ret at 1.
         unfold bind at 1, bind at 1, emit at 1, modify at 1.
         reflexivity. }
    reflexivity.
Qed.

Lemma get_api_key_posts s r s' :
  get_api_key L env s = (r, s') ->
  count_posts (trace s')
  = if needs_renewal L env s then S (count_posts (trace s))
    else count_posts (trace s).
Proof.
  intros H. destruct (needs_renewal L env s) eqn:Hneeds.
  - destruct (get_api_key_renewing s Hneeds) as (t & Ht & Heq).
    rewrite Heq in H.
    apply bind_inv in H as [(u & s1 & Hrenew & H) | (e & Hrenew & _)].
    + apply renew_posts_once in Hrenew. cbn [trace set_trace] in Hrenew.
      unfold bind, gets, lift in H. injection H as _ <-. congruence.
    + apply renew_posts_once in Hrenew. cbn [trace set_trace] in Hrenew.
      congruence.
  - rewrite (get_api_key_cached s Hneeds) in H. by injection H as _ <-.
Qed.

Lemma get_api_key_gets s r s' :
  get_api_key L env s = (r, s') ->
  count_gets (trace s') = count_gets (trace s).
Proof. by apply (keeps_get_api_key L env same_gets no_get). Qed.

(** The token and its expiry stay cached together. *)
Lemma get_api_key_cached_together s r s' :
  cached_together (data s) ->
  get_api_key L env s = (r, s') ->
  cached_together (data s').
Proof.
  intros Hinv H. destruct (needs_renewal L env s) eqn:Hneeds.
  - destruct (get_api_key_renewing s Hneeds) as (t & _ & Heq).
    rewrite Heq in H.
    assert (forall u s1, _renew_api_key L env (set_trace t s) = (u, s1) ->
              cached_together (data s1)) as Hrenew.
    { intros u s1 Hr.
      destruct (renew_data _ _ _ Hr) as [[_ ->] | (z & tok & _ & ->)];
        [exact Hinv | by split]. }
    apply bind_inv in H as [(u & s1 & Hr & H) | (e & Hr & _)].
    + unfold bind, gets, lift in H. injection H as _ <-. by eapply Hrenew.
    + by eapply Hrenew.
  - rewrite (get_api_key_cached s Hneeds) in H. by injection H as _ <-.
Qed.

Lemma init_cached_together c : cached_together (data (__init__ L c)).
Proof. by split. Qed.

(** Under that invariant the test of the code is the test of the
    spec. *)
Lemma needs_renewal_iff s :
  cached_together (data s) ->
  needs_renewal L env s = true <-> absent_or_expired L env s.
Proof.
  intros [H1 H2]. unfold needs_renewal, absent_or_expired.
  destruct (ATTR_EXPIRES_AT (data s)) as [expires_at |] eqn:E.
  - rewrite Qle_bool_iff. split.
    + intros Hle. right. by exists expires_at.
    + intros [Hnone | (e & [= <-] & Hle)]; [| exact Hle].
      by specialize (H1 Hnone).
  - split; [| done]. intros _. left. by apply H2.
Qed.
End Token.

(** ** The token manager: statements *)

(** C8. [get_api_key] calls the token endpoint exactly once if and only
    if no token is cached or the clock has reached [expires_at], and not
    at all otherwise; in that other case it makes no network call, leaves
    the credentials alone and returns the cached token.  The credentials
    are taken with the token and its expiry cached together, as
    [__init__] and [get_api_key] leave them. *)
Theorem get_api_key_renews_iff_absent_or_expired
    L env (s : world) (r : result json) (s' : world) :
  cached_together (data s) ->
  get_api_key L env s = (r, s') ->
  (count_posts (trace s') = S (count_posts (trace s))
   <-> absent_or_expired L env s)
  /\ (count_posts (trace s') = count_posts (trace s)
      <-> ~ absent_or_expired L env s)
  /\ count_gets (trace s') = count_gets (trace s)
  /\ (~ absent_or_expired L env s ->
      data s' = data s
      /\ exists tok, ATTR_API_KEY (data s) = Some tok /\ r = Ok tok).
Proof.
  intros Hinv H.
  pose proof (get_api_key_posts L env s r s' H) as Hposts.
  pose proof (needs_renewal_iff L env s Hinv) as Hiff.
  destruct (needs_renewal L env s) eqn:Hneeds.
  - assert (absent_or_expired L env s) as Habs by (by apply Hiff).
    split; [split; [done | lia] |].
    split; [split; [lia | done] |].
    split; [by eapply get_api_key_gets | done].
  - assert (~ absent_or_expired L env s) as Hnot
        by (intros Habs; apply Hiff in Habs; discriminate).
    split; [split; [lia | done] |].
    split; [done |].
    split; [by eapply get_api_key_gets |].
    intros _. rewrite (get_api_key_cached L env s Hneeds) in H.
    injection H as <- <-. split; [reflexivity |].
    destruct (ATTR_API_KEY (data s)) as [tok |] eqn:Etok; [by exists tok |].
    exfalso. apply Hnot. by left.
Qed.

Lemma get_api_key_renews_iff_absent_or_expired_witness :
  cached_together (data Sample.settled)
  /\ count_posts
       (trace (snd (get_api_key Runtime.lib Sample.good_world Sample.settled)))
     = count_posts (trace Sample.settled)
  /\ fst (get_api_key Runtime.lib Sample.good_world Sample.settled)
     = Ok (JStr "tok").
Proof.
  assert (cached_together (data Sample.settled)) as Hinv
    by (vm_compute; split; discriminate).
  split; [exact Hinv |].
  destruct (get_api_key_renews_iff_absent_or_expired
              Runtime.lib Sample.good_world Sample.settled _ _ Hinv
              (surjective_pairing _))
    as (_ & _ & _ & Hcached).
  assert (~ absent_or_expired Runtime.lib Sample.good_world Sample.settled)
    as Hnot.
  { intros [Hnone | (e & He & Hle)];
      [vm_compute in Hnone; discriminate Hnone |].
    vm_compute in He. injection He as <-. vm_compute in Hle. by apply Hle. }
  split; [vm_compute; reflexivity |].
  destruct (Hcached Hnot) as (_ & tok & Htok & ->).
  vm_compute in Htok. by injection Htok as <-.
Defined.

(** C7. When the token endpoint answers with a response that lacks
    [access_token] or [expires_in], [get_api_key] leaves the cached token
    and expiry exactly as they were, and whenever it renews it calls the
    endpoint once and raises the [ValueError] of the check. *)
Theorem get_api_key_rejects_incomplete_response
    L env (items : list (string * json)) (s : world) (r : result json)
    (s' : world) :
  (forall t, session_post env t = Ok (JDict items)) ->
  assoc "access_token" items = None \/ assoc "expires_in" items = None ->
  get_api_key L env s = (r, s') ->
  data s' = data s
  /\ (needs_renewal L env s = true ->
      r = Raise ValueError
      /\ count_posts (trace s') = S (count_posts (trace s))).
Proof.
  intros Hpost Hmissing H.
  pose proof (get_api_key_posts L env s r s' H) as Hposts.
  destruct (needs_renewal L env s) eqn:Hneeds.
  - destruct (get_api_key_renewing L env s Hneeds) as (t & _ & Heq).
    rewrite Heq in H.
    destruct (renew_missing L env items (set_trace t s) Hpost Hmissing)
      as (s1 & Hrenew & Hdata).
    rewrite (bind_eq_raise _ _ _ _ _ Hrenew) in H.
    injection H as <- <-. split; [exact Hdata |]. by intros _.
  - rewrite (get_api_key_cached L env s Hneeds) in H.
    injection H as <- <-. split; [reflexivity | discriminate].
Qed.

Lemma get_api_key_rejects_incomplete_response_witness :
  fst (get_api_key Runtime.lib Sample.tokenless_world Sample.fresh)
  = Raise ValueError
  /\ data (snd (get_api_key Runtime.lib Sample.tokenless_world Sample.fresh))
     = data Sample.fresh.
Proof.
  assert (needs_renewal Runtime.lib Sample.tokenless_world Sample.fresh
          = true) as Hneeds by (vm_compute; reflexivity).
  destruct (get_api_key_rejects_incomplete_response
              Runtime.lib Sample.tokenless_world
              [("expires_in", JInt 3600); ("issued_at", JInt 1614587400000)]
              Sample.fresh _ _
              (fun _ => eq_refl) (or_introl eq_refl) (surjective_pairing _))
    as [Hdata Hraise].
  split; [| exact Hdata].
  by destruct (Hraise Hneeds).
Defined.

(** C4. The default path, run: the token endpoint leaves [issued_at] out,
    the check puts the clock's seconds in its place, and the renewal
    divides them by 1000 like the provider's milliseconds.  With the
    clock at 1614587400 and [expires_in] 3600 the stored expiry is
    3600 + 1614587 = 1618187, not 1614591000: it lies in the past, and
    the next call renews again. *)
Theorem default_issued_at_is_divided_by_1000 :
  fst (get_api_key Runtime.lib Sample.undated_world Sample.fresh)
  = Ok (JStr "tok")
  /\ ATTR_EXPIRES_AT
       (data (snd (get_api_key Runtime.lib Sample.undated_world Sample.fresh)))
     = Some (3600 + 1614587400 / 1000)%Z
  /\ (3600 + 1614587400 / 1000 < 1614587400 + 3600)%Z
  /\ Qtrunc Sample.clock = 1614587400%Z
  /\ needs_renewal Runtime.lib Sample.undated_world
       (snd (get_api_key Runtime.lib Sample.undated_world Sample.fresh))
     = true.
Proof. repeat split; vm_compute; reflexivity. Qed.

(** With the provider's millisecond [issued_at] the expiry is the issue
    time in seconds plus [expires_in]. *)
Lemma provider_issued_at_in_milliseconds :
  ATTR_EXPIRES_AT
    (data (snd (get_api_key Runtime.lib Sample.good_world Sample.fresh)))
  = Some (1614587400 + 3600)%Z.
Proof. vm_compute. reflexivity. Qed.

(** ** Parsing: statements *)

(** Whatever parses, its [wind_bearing] is its [precipitation]. *)
Lemma parse_forecast_wind_bearing L day entry :
  parse_forecast_value L day = Ok entry ->
  exists precip_total,
    rbind (getitem day "RRR_MM") (py_float L) = Ok precip_total
    /\ assoc "precipitation" entry = Some (JFloat precip_total)
    /\ assoc "wind_bearing" entry = Some (JFloat precip_total).
Proof.
  unfold parse_forecast_value.
  repeat match goal with
         | |- context [rbind (rbind (getitem day ?k) ?f) _] =>
             destruct (rbind (getitem day k) f); cbn [rbind];
             [| discriminate]
         end.
  intros [= <-]. eexists. repeat split; reflexivity.
Qed.

(** C5. A well-formed record, parsed: [DD_DEG] is 180 and [RRR_MM] is
    0.5; the entry's precipitation is 0.5, and so is its wind bearing,
    where the claim has the integer 180. *)
Theorem parse_forecast_wind_bearing_is_precipitation :
  rbind (getitem Sample.day_1 "DD_DEG") (py_int Runtime.lib) = Ok 180%Z
  /\ rbind (getitem Sample.day_1 "RRR_MM") (py_float Runtime.lib)
     = Ok (FNum (1 # 2))
  /\ (exists entry,
        fst (parse_forecast Runtime.lib Sample.day_1 Sample.fresh) = Ok entry
        /\ assoc "precipitation" entry = Some (JFloat (FNum (1 # 2)))
        /\ assoc "wind_bearing" entry = Some (JFloat (FNum (1 # 2)))
        /\ assoc "wind_bearing" entry <> Some (JInt 180)).
Proof.
  split; [vm_compute; reflexivity | split; [vm_compute; reflexivity |]].
  eexists. split; [vm_compute; reflexivity |].
  repeat split; try reflexivity. discriminate.
Qed.

(** ** The update cycle: statements *)

(** C10. After a successful cycle the published wind speed is the
    [FX_KMH] of the record taken for the current hour, coerced to float;
    [FF_KMH] is read and coerced too, and its value is not what is
    published. *)
Theorem update_publishes_gust L env (s s' : world) :
  __update L env s = (Ok tt, s') ->
  exists body s1 rec mean_wind gust,
    __get L env forecast_url [] s = (Ok body, s1)
    /\ current_record L (datetime_now env (EvNow :: trace s1)) body = Ok rec
    /\ rbind (getitem rec "FF_KMH") (py_float L) = Ok mean_wind
    /\ rbind (getitem rec "FX_KMH") (py_float L) = Ok gust
    /\ wind_speed s' = Some gust.
Proof.
  intros H.
  destruct (update_ok L env s s' H)
    as (body & s1 & rec & symbol_id & temperature & mean_wind & gust & deg
        & cardinal & precipitation & rain_probability & days & hours
        & Hget & Hrec & _ & _ & Hmean & Hgust & _ & _ & _ & _ & _ & _
        & _ & _ & Hself).
  exists body, s1, rec, mean_wind, gust.
  repeat (split; [assumption |]).
  unfold wind_speed. by rewrite Hself.
Qed.

Lemma update_publishes_gust_witness :
  fst (__update Runtime.lib Sample.good_world Sample.fresh) = Ok tt
  /\ rbind (getitem Sample.hour_10 "FF_KMH") (py_float Runtime.lib)
     = Ok (FNum 5)
  /\ rbind (getitem Sample.hour_10 "FX_KMH") (py_float Runtime.lib)
     = Ok (FNum 12)
  /\ wind_speed Sample.settled = Some (FNum 12).
Proof.
  assert (__update Runtime.lib Sample.good_world Sample.fresh
          = (Ok tt, Sample.settled)) as Hrun by (vm_compute; reflexivity).
  destruct (update_publishes_gust _ _ _ _ Hrun)
    as (body & s1 & rec & mean_wind & gust & _ & _ & _ & _ & Hspeed).
  split; [by rewrite Hrun |].
  split; [vm_compute; reflexivity |]. split; [vm_compute; reflexivity |].
  rewrite Hspeed. f_equal.
  assert (wind_speed Sample.settled = Some (FNum 12)) as Hval
    by (vm_compute; reflexivity).
  rewrite Hspeed in Hval. by injection Hval.
Defined.

(** C1. A successful cycle, run: of the two hourly records one parses;
    its entry is appended to the list that [self._forecast] already
    names, and the hourly list is published empty. *)
Theorem hourly_entries_land_in_daily_list :
  fst (__update Runtime.lib Sample.hourly_world Sample.fresh) = Ok tt
  /\ length (parsed_entries Runtime.lib [Sample.hour_10; Sample.hour_11]) = 1
  /\ hourly_forecast
       (snd (__update Runtime.lib Sample.hourly_world Sample.fresh)) = []
  /\ forecast (snd (__update Runtime.lib Sample.hourly_world Sample.fresh))
     = parsed_entries Runtime.lib [Sample.day_1]
       ++ parsed_entries Runtime.lib [Sample.hour_10; Sample.hour_11].
Proof. repeat split; vm_compute; reflexivity. Qed.

(** C6. A successful cycle, run: of three daily records the second has
    the temperature ["n/a"] and is skipped with one warning, the other
    two parse in order; the daily list is published with three entries,
    the third being the hourly record that parses. *)
Theorem three_daily_records_publish_three_entries :
  fst (__update Runtime.lib Sample.mixed_world Sample.fresh) = Ok tt
  /\ parse_forecast_value Runtime.lib Sample.day_2 = Raise ValueError
  /\ parsed_entries Runtime.lib [Sample.day_1; Sample.day_2; Sample.day_3]
     = parsed_entries Runtime.lib [Sample.day_1; Sample.day_3]
  /\ length
       (parsed_entries Runtime.lib [Sample.day_1; Sample.day_2; Sample.day_3])
     = 2
  /\ skipped
       (trace (snd (__update Runtime.lib Sample.mixed_world Sample.fresh)))
     = [Sample.hour_10; Sample.day_2]
  /\ length
       (forecast (snd (__update Runtime.lib Sample.mixed_world Sample.fresh)))
     = 3
  /\ forecast (snd (__update Runtime.lib Sample.mixed_world Sample.fresh))
     = parsed_entries Runtime.lib [Sample.day_1; Sample.day_3]
       ++ parsed_entries Runtime.lib [Sample.hour_11].
Proof. repeat split; vm_compute; reflexivity. Qed.

(** C2. A cycle, run: the entity is configured for 46.948, 7.4474; the
    one request to the forecast endpoint carries the bearer token and
    goes to the address of 47.0274, 8.3020. *)
Theorem update_asks_hard_coded_location :
  latitude (_default_params (self Sample.fresh)) = "46.948"%string
  /\ longitude (_default_params (self Sample.fresh)) = "7.4474"%string
  /\ List.filter is_get
       (trace (snd (__update Runtime.lib Sample.good_world Sample.fresh)))
     = [ EvGet "https://api.srgssr.ch/srf-meteo/forecast/47.0274,8.3020"
           [("headers", [("Authorization", "Bearer tok")])] ]%string
  /\ URL_FORECASTS
       (latitude (_default_params (self Sample.fresh)) +:+ ","
        +:+ longitude (_default_params (self Sample.fresh)))
     = "https://api.srgssr.ch/srf-meteo/forecast/46.948,7.4474"%string
  /\ forecast_url
     <> URL_FORECASTS
          (latitude (_default_params (self Sample.fresh)) +:+ ","
           +:+ longitude (_default_params (self Sample.fresh))).
Proof.
  repeat split; try (vm_compute; reflexivity).
  vm_compute. discriminate.
Qed.


(** ** Bearing: further properties *)

(** X1. On a finite angle [deg_to_cardinal] always answers, with one of
    the sixteen labels; on NaN and the infinities it raises the
    [ValueError] of [round].  It never indexes outside [CARDINALS]. *)
Theorem deg_to_cardinal_total (deg : pyfloat) :
  match deg with
  | FNum q =>
      exists label,
        deg_to_cardinal deg = Ok label /\ In label CARDINALS
  | _ => deg_to_cardinal deg = Raise ValueError
  end.
Proof.
  destruct deg as [q | |]; try reflexivity.
  unfold deg_to_cardinal. cbv zeta.
  change (Z.of_nat (length CARDINALS)) with 16%Z.
  assert (Z.to_nat (cardinal_index q mod 16) < length CARDINALS) as Hlt.
  { change (length CARDINALS) with 16.
    pose proof (Z.mod_pos_bound (cardinal_index q) 16). lia. }
  destruct (lookup_lt_is_Some_2 _ _ Hlt) as [label Hlabel].
  exists label. rewrite Hlabel. split; [reflexivity |].
  apply list_elem_of_In. by eapply list_elem_of_lookup_2.
Qed.

(** Away from a tie, nearest-even and nearest-up round alike. *)
Lemma py_round_off_tie (x : Q) :
  ~ (x - inject_Z (Qfloor x) == 1 # 2)%Q ->
  py_round x = round_half_up x.
Proof.
  intros Hoff. unfold py_round, round_half_up.
  pose proof (Qfloor_le x) as Hf. pose proof (Qlt_floor x) as Hc.
  rewrite inject_Z_plus in Hc. change (inject_Z 1) with 1%Q in Hc.
  destruct (Qcompare_spec (x - inject_Z (Qfloor x)) (1 # 2)) as [H | H | H].
  - contradiction.
  - symmetry. apply Qfloor_unique; lra.
  - symmetry. apply Qfloor_unique; rewrite inject_Z_plus;
      change (inject_Z 1) with 1%Q; lra.
Qed.

Lemma exact_mod_360_integer (z : Z) :
  (exact_mod (inject_Z z) 360 == inject_Z (z mod 360))%Q.
Proof.
  unfold exact_mod.
  assert (Qfloor (inject_Z z / 360) = (z / 360)%Z) as ->.
  { unfold Qdiv, Qmult, Qinv, inject_Z, Qfloor. simpl.
    f_equal; lia. }
  rewrite (Z.mod_eq z 360) by lia.
  unfold Z.sub. rewrite inject_Z_plus, inject_Z_opp, inject_Z_mult.
  change (inject_Z 360) with 360%Q. ring.
Qed.

(** A whole number of degrees never falls on a sector boundary. *)
Lemma integer_degrees_off_tie (z : Z) :
  let x := (exact_mod (inject_Z z) 360 / (45 # 2))%Q in
  ~ (x - inject_Z (Qfloor x) == 1 # 2)%Q.
Proof.
  cbv zeta. set (m := (z mod 360)%Z).
  assert (exact_mod (inject_Z z) 360 / (45 # 2) == (2 * m) # 45)%Q as Hx.
  { rewrite exact_mod_360_integer. fold m.
    unfold Qeq, Qdiv, Qmult, Qinv, inject_Z. simpl. lia. }
  intros H. rewrite (Qfloor_comp _ _ Hx) in H. rewrite Hx in H.
  revert H. unfold Qfloor. set (f := (2 * m / 45)%Z).
  unfold Qeq, Qminus, Qplus, Qopp, inject_Z. simpl. lia.
Qed.

(** X2. For a whole number of degrees, which is what [DD_DEG] carries,
    no tie arises: [deg_to_cardinal] is rounding to the nearest sector
    whichever way ties would go. *)
Theorem deg_to_cardinal_integer (z : Z) :
  deg_to_cardinal (FNum (inject_Z z))
  = of_option (to_cardinal_ties_up (inject_Z z)) IndexError.
Proof.
  assert (inject_Z z == (4 * z) # 4)%Q as Hz
    by (unfold Qeq, inject_Z; simpl; lia).
  unfold deg_to_cardinal, to_cardinal_ties_up. cbv zeta.
  rewrite (cardinal_index_quarter _ _ Hz). unfold nearest_sector.
  rewrite py_round_off_tie by apply integer_degrees_off_tie.
  reflexivity.
Qed.






(** ** Condition mapping: properties *)

Lemma in_symbol_codes (z : Z) :
  (1 <= Z.abs z <= 30)%Z -> In z symbol_codes.
Proof.
  intros Hz. unfold symbol_codes. apply in_or_app.
  destruct (Z.le_gt_cases 0 z).
  - left. apply in_map_iff. exists (Z.to_nat z).
    split; [lia | apply in_seq; lia].
  - right. apply in_map_iff. exists (Z.to_nat (- z)).
    split; [lia | apply in_seq; lia].
Qed.

Lemma zassoc_None {A} (z : Z) (items : list (Z * A)) :
  Forall (fun kv => fst kv <> z) items -> zassoc z items = None.
Proof.
  induction 1 as [| [k v] rest Hk _ IH]; [reflexivity |].
  simpl in *. destruct (Z.eqb_spec z k); [congruence | exact IH].
Qed.

(** X4. [get_condition_from_symbol] never fails.  For the codes 1 to 30
    and -1 to -30 it answers with one of eleven condition names and logs
    nothing; for every other code it answers ["unavailable"] and logs one
    warning that carries the code. *)
Theorem get_condition_from_symbol_total (symbol_id : Z) (s : world) :
  ((1 <= Z.abs symbol_id <= 30)%Z ->
   exists condition,
     get_condition_from_symbol symbol_id s = (Ok condition, s)
     /\ In condition CONDITIONS
     /\ condition <> STATE_UNAVAILABLE)
  /\ (~ (1 <= Z.abs symbol_id <= 30)%Z ->
      get_condition_from_symbol symbol_id s
      = (Ok STATE_UNAVAILABLE,
         set_trace
           (EvLog "warning" "No condition entry for symbol id {}"
              [JInt symbol_id] :: trace s) s)).
Proof.
  split.
  - intros Hz.
    assert (forallb
              (fun z =>
                 match zassoc z SYMBOL_STATE_MAP with
                 | Some c =>
                     existsb (String.eqb c) CONDITIONS
                     && negb (String.eqb c STATE_UNAVAILABLE)
                 | None => false
                 end) symbol_codes = true) as Hall
      by (vm_compute; reflexivity).
    rewrite forallb_forall in Hall.
    specialize (Hall symbol_id (in_symbol_codes symbol_id Hz)).
    unfold get_condition_from_symbol.
    destruct (zassoc symbol_id SYMBOL_STATE_MAP) as [c |]; [| discriminate].
    apply andb_prop in Hall as [Hin Hne].
    exists c. split; [reflexivity |]. split.
    + apply existsb_exists in Hin as (c' & Hc' & Heq).
      apply String.eqb_eq in Heq. by subst.
    + apply negb_true_iff, String.eqb_neq in Hne. exact Hne.
  - intros Hz. unfold get_condition_from_symbol.
    rewrite zassoc_None; [reflexivity |].
    assert (forallb (fun kv => (1 <=? Z.abs (fst kv)) && (Z.abs (fst kv) <=? 30))%Z
              SYMBOL_STATE_MAP = true) as Hkeys by (vm_compute; reflexivity).
    rewrite forallb_forall in Hkeys.
    apply List.Forall_forall. intros kv Hkv Heq.
    specialize (Hkeys kv Hkv). apply andb_prop in Hkeys as [H1 H2].
    apply Z.leb_le in H1, H2. subst. lia.
Qed.

Lemma get_condition_from_symbol_total_witness :
  (exists condition,
     get_condition_from_symbol (-1) Sample.fresh = (Ok condition, Sample.fresh)
     /\ In condition CONDITIONS
     /\ condition <> STATE_UNAVAILABLE)
  /\ fst (get_condition_from_symbol 9999 Sample.fresh) = Ok STATE_UNAVAILABLE.
Proof.
  destruct (get_condition_from_symbol_total (-1) Sample.fresh) as [Hknown _].
  destruct (get_condition_from_symbol_total 9999 Sample.fresh)
    as [_ Hunknown].
  split; [apply Hknown; simpl; lia |].
  rewrite Hunknown; [reflexivity | simpl; lia].
Defined.

(** ** [weak_update] and [__get]: properties *)

Lemma assoc_None_not_in {A} k (items : list (string * A)) :
  ~ In k (map fst items) -> assoc k items = None.
Proof.
  induction items as [| [k0 v0] rest IH]; [reflexivity |].
  simpl. intros Hnot.
  destruct (String.eqb_spec k k0) as [-> | _]; [tauto | apply IH; tauto].
Qed.

(** [d.update(other)] for an [other] with distinct keys: the bindings of
    [other] win, the remaining ones of [d] stay. *)
Lemma assoc_dict_update {A} h (d other : list (string * A)) :
  List.NoDup (map fst other) ->
  assoc h (dict_update d other)
  = match assoc h other with
    | Some v => Some v
    | None => assoc h d
    end.
Proof.
  unfold dict_update. revert d.
  induction other as [| [k v] rest IH]; intros d Hnodup; [reflexivity |].
  apply List.NoDup_cons_iff in Hnodup as [Hk Hrest].
  cbn [fold_left fst snd]. rewrite (IH _ Hrest). cbn [assoc].
  rewrite assoc_dict_set.
  destruct (String.eqb_spec h k) as [-> | _]; [| reflexivity].
  by rewrite (assoc_None_not_in k rest Hk).
Qed.

(** X5. [weak_update d key value] leaves every other key of [d] alone.
    Under [key] it stores [value] when [d] had nothing there; when [d]
    held [existing] there, it stores the union in which the bindings of
    [existing] win and those of [value] fill the gaps. *)
Theorem weak_update_spec
    (d : list (string * headers)) (key : string) (value : headers) :
  (forall k, k <> key -> assoc k (weak_update d key value) = assoc k d)
  /\ match assoc key d with
     | None => assoc key (weak_update d key value) = Some value
     | Some existing =>
         List.NoDup (map fst existing) ->
         exists merged,
           assoc key (weak_update d key value) = Some merged
           /\ forall h,
                assoc h merged
                = match assoc h existing with
                  | Some v => Some v
                  | None => assoc h value
                  end
     end.
Proof.
  unfold weak_update. cbv zeta. split.
  - intros k Hk. rewrite assoc_dict_set.
    by destruct (String.eqb_spec k key).
  - destruct (assoc key d) as [existing |].
    + intros Hnodup. eexists. split.
      * rewrite assoc_dict_set. by rewrite String.eqb_refl.
      * intros h. by apply assoc_dict_update.
    + rewrite assoc_dict_set. by rewrite String.eqb_refl.
Qed.

Lemma weak_update_spec_witness :
  assoc "headers"
    (weak_update [("headers", [("Authorization", "Basic abc")])] "headers"
       [("Authorization", "Bearer tok"); ("Accept", "application/json")])
  = Some [("Authorization", "Basic abc"); ("Accept", "application/json")]%string.
Proof.
  destruct (weak_update_spec
              [("headers", [("Authorization", "Basic abc")])]%string
              "headers"
              [("Authorization", "Bearer tok");
               ("Accept", "application/json")]%string) as [_ Hmerge].
  cbn [assoc String.eqb Ascii.eqb Bool.eqb] in Hmerge.
  destruct Hmerge as (merged & Hfound & _).
  - repeat constructor. simpl. tauto.
  - vm_compute. reflexivity.
Defined.

Section Get.
Context (L : pylib) (env : environment L).

(** The keyword arguments [__get] passes on. *)
Lemma get_unfold url kwargs s tok s0 :
  get_api_key L env s = (Ok tok, s0) ->
  __get L env url kwargs s
  = let kw := weak_update kwargs "headers"
                [("Authorization", "Bearer " +:+ py_str L tok)] in
    let s1 := set_trace (EvGet url kw :: trace s0) s0 in
    match session_get env (trace s1) with
    | Raise e => (Raise e, s1)
    | Ok resp =>
        match
          (if (status resp =? HTTP_OK)%Z
           then
             rbind
               match assoc "x-ratelimit-reset-time" (resp_headers resp) with
               | None => Ok 0%Z
               | Some h => of_option (int_of_str L h) ValueError
               end
               (fun reset =>
                  rbind
                    (of_option
                       (fromtimestamp L (inject_Z reset / 1000)%Q)
                       OverflowError)
                    (fun _ => Ok tt))
           else Ok tt)
        with
        | Raise e => (Raise e, s1)
        | Ok _ =>
            match resp_json resp with
            | Raise e => (Raise e, s1)
            | Ok body =>
                if (400 <=? status resp)%Z then (Raise ClientError, s1)
                else (Ok body, s1)
            end
        end
    end.
Proof.
  intros Hkey. unfold __get. rewrite (bind_eq_ok _ _ _ _ _ Hkey).
  cbv zeta. rewrite bind_emit. cbv beta. rewrite bind_await.
  destruct (session_get env _) as [resp | e]; [| reflexivity].
  unfold bind, lift, ret, raise.
  destruct (status resp =? HTTP_OK)%Z.
  - destruct (assoc "x-ratelimit-reset-time" (resp_headers resp)) as [h |].
    + destruct (int_of_str L h) as [n |]; cbn [of_option rbind];
        [| reflexivity].
      destruct (fromtimestamp L _); cbn [of_option rbind]; [| reflexivity].
      destruct (resp_json resp); [| reflexivity].
      by destruct (400 <=? status resp)%Z.
    + cbn [rbind].
      destruct (fromtimestamp L _); cbn [of_option rbind]; [| reflexivity].
      destruct (resp_json resp); [| reflexivity].
      by destruct (400 <=? status resp)%Z.
  - destruct (resp_json resp); [| reflexivity].
    by destruct (400 <=? status resp)%Z.
Qed.

(** X6. When [__get] returns a body, a token was obtained, exactly one
    request was sent, to the given address and with the bearer header
    merged into the caller's keyword arguments, the status was below
    400, and the body is what [resp.json()] gave. *)
Theorem get_returns_the_body url kwargs s body s' :
  __get L env url kwargs s = (Ok body, s') ->
  exists tok s0 resp,
    get_api_key L env s = (Ok tok, s0)
    /\ s' = set_trace
              (EvGet url
                 (weak_update kwargs "headers"
                    [("Authorization", "Bearer " +:+ py_str L tok)])
               :: trace s0) s0
    /\ session_get env (trace s') = Ok resp
    /\ (status resp < 400)%Z
    /\ resp_json resp = Ok body
    /\ count_gets (trace s') = S (count_gets (trace s)).
Proof.
  intros H.
  destruct (get_api_key L env s) as [[tok | e] s0] eqn:Hkey.
  2: { by rewrite (get_raises_with_token L env url kwargs s e s0 Hkey) in H. }
  rewrite (get_unfold url kwargs s tok s0 Hkey) in H. cbv zeta in H.
  exists tok, s0.
  destruct (session_get env _) as [resp | e] eqn:Hresp; [| discriminate].
  exists resp.
  destruct (if (status resp =? HTTP_OK)%Z then _ else _); [| discriminate].
  destruct (resp_json resp) as [body' | e]; [| discriminate].
  destruct (400 <=? status resp)%Z eqn:Hstatus; [discriminate |].
  injection H as <- <-.
  repeat split; try done.
  - apply Z.leb_gt in Hstatus. exact Hstatus.
  - cbn [trace set_trace]. unfold count_gets. cbn [List.filter is_get length].
    f_equal. by apply (get_api_key_gets L env s (Ok tok) s0).
Qed.

(** X7. A status of 400 or more never yields a body: [__get] raises what
    [resp.json()] raises if it does, and the error of [raise_for_status]
    otherwise.  The request has been sent and the token stays cached. *)
Theorem get_raises_for_status url kwargs s tok s0 resp :
  get_api_key L env s = (Ok tok, s0) ->
  session_get env
    (EvGet url
       (weak_update kwargs "headers"
          [("Authorization", "Bearer " +:+ py_str L tok)])
     :: trace s0) = Ok resp ->
  (400 <= status resp)%Z ->
  __get L env url kwargs s
  = (Raise match resp_json resp with
           | Ok _ => ClientError
           | Raise e => e
           end,
     set_trace
       (EvGet url
          (weak_update kwargs "headers"
             [("Authorization", "Bearer " +:+ py_str L tok)])
        :: trace s0) s0).
Proof.
  intros Hkey Hresp Hstatus.
  rewrite (get_unfold url kwargs s tok s0 Hkey). cbv zeta.
  cbn [trace set_trace]. rewrite Hresp.
  assert ((status resp =? HTTP_OK)%Z = false) as ->
    by (apply Z.eqb_neq; unfold HTTP_OK; lia).
  destruct (resp_json resp); [| reflexivity].
  by assert ((400 <=? status resp)%Z = true) as -> by (by apply Z.leb_le).
Qed.

(** X8. A 200 answer whose [x-ratelimit-reset-time] header is not an
    integer literal makes [__get] raise [ValueError], whatever the body:
    the arguments of the rate-limit debug message are evaluated before
    the body is read. *)
Theorem get_raises_on_bad_rate_limit_header url kwargs s tok s0 resp h :
  get_api_key L env s = (Ok tok, s0) ->
  session_get env
    (EvGet url
       (weak_update kwargs "headers"
          [("Authorization", "Bearer " +:+ py_str L tok)])
     :: trace s0) = Ok resp ->
  status resp = HTTP_OK ->
  assoc "x-ratelimit-reset-time" (resp_headers resp) = Some h ->
  int_of_str L h = None ->
  exists s', __get L env url kwargs s = (Raise ValueError, s').
Proof.
  intros Hkey Hresp Hstatus Hheader Hint.
  rewrite (get_unfold url kwargs s tok s0 Hkey). cbv zeta.
  cbn [trace set_trace]. rewrite Hresp, Hstatus, Z.eqb_refl, Hheader, Hint.
  eexists. reflexivity.
Qed.
End Get.

Lemma get_returns_the_body_witness :
  is_ok (fst (__get Runtime.lib Sample.good_world forecast_url []
                Sample.fresh)) = true
  /\ count_gets
       (trace (snd (__get Runtime.lib Sample.good_world forecast_url []
                      Sample.fresh)))
     = 1.
Proof.
  assert (exists body,
            __get Runtime.lib Sample.good_world forecast_url [] Sample.fresh
            = (Ok body,
               snd (__get Runtime.lib Sample.good_world forecast_url []
                      Sample.fresh))) as [body Hrun]
    by (eexists; vm_compute; reflexivity).
  destruct (get_returns_the_body _ _ _ _ _ _ _ Hrun)
    as (tok & s0 & resp & _ & _ & _ & _ & _ & Hcount).
  split; [by rewrite Hrun |]. rewrite Hcount. vm_compute. reflexivity.
Defined.

Lemma get_raises_for_status_witness :
  fst (__get Runtime.lib Sample.failing_world forecast_url [] Sample.settled)
  = Raise ClientError.
Proof.
  assert (exists s0,
            get_api_key Runtime.lib Sample.failing_world Sample.settled
            = (Ok (JStr "tok"), s0)) as [s0 Hkey]
    by (eexists; vm_compute; reflexivity).
  rewrite (get_raises_for_status Runtime.lib Sample.failing_world
             forecast_url [] Sample.settled (JStr "tok") s0
             {| status := 500; resp_headers := [];
                resp_json := Ok (JDict [("status", JStr "error")]) |}
             Hkey eq_refl);
    [reflexivity | simpl; lia].
Defined.

Lemma get_raises_on_bad_rate_limit_header_witness :
  exists s',
    __get Runtime.lib
      (Runtime.steady Sample.clock Sample.now (Ok Sample.token_full)
         (Ok {| status := 200;
                resp_headers := [("x-ratelimit-reset-time", "soon")];
                resp_json := Ok (JDict []) |}) 57)
      forecast_url [] Sample.fresh
    = (Raise ValueError, s').
Proof.
  assert (exists s0,
            get_api_key Runtime.lib
              (Runtime.steady Sample.clock Sample.now (Ok Sample.token_full)
                 (Ok {| status := 200;
                        resp_headers := [("x-ratelimit-reset-time", "soon")];
                        resp_json := Ok (JDict []) |}) 57) Sample.fresh
            = (Ok (JStr "tok"), s0)) as [s0 Hkey]
    by (eexists; vm_compute; reflexivity).
  exact (get_raises_on_bad_rate_limit_header Runtime.lib _ forecast_url []
           Sample.fresh (JStr "tok") s0 _ "soon" Hkey eq_refl eq_refl
           eq_refl eq_refl).
Defined.

(** ** Taking the current record: properties *)

Section Selection.
Context (L : pylib) (env : environment L).

Lemma next_future_cons now f rest :
  next_future L now (f :: rest)
  = rbind (is_after L now f)
      (fun later => if later then Ok (Some f) else next_future L now rest).
Proof.
  unfold is_after. cbn [next_future].
  destruct (rbind (getitem f "local_date_time") (parse_datetime L));
    [| reflexivity].
  cbn [rbind]. by destruct (dt_gt L a now).
Qed.

(** X9. What [next] finds is the first record that lies after [now]:
    every record before it compares as not after, and the records behind
    it are never looked at, so that more records, however malformed,
    change nothing. *)
Theorem next_future_first now fs f :
  next_future L now fs = Ok (Some f) ->
  (exists before behind,
     fs = before ++ f :: behind
     /\ Forall (fun g => is_after L now g = Ok false) before
     /\ is_after L now f = Ok true)
  /\ forall more, next_future L now (fs ++ more) = Ok (Some f).
Proof.
  induction fs as [| g rest IH]; [discriminate |].
  rewrite next_future_cons.
  destruct (is_after L now g) as [[|] | e] eqn:Hg; cbn [rbind];
    [| | discriminate].
  - intros [= <-]. split.
    + exists [], rest. by repeat split.
    + intros more. cbn [app]. rewrite next_future_cons, Hg. reflexivity.
  - intros Hrest. destruct (IH Hrest) as [(before & behind & -> & Hb & Hf) Hm].
    split.
    + exists (g :: before), behind. repeat split; [| exact Hf].
      by constructor.
    + intros more. cbn [app]. rewrite next_future_cons, Hg. apply Hm.
Qed.

Lemma next_future_none_iff now fs :
  next_future L now fs = Ok None
  <-> Forall (fun g => is_after L now g = Ok false) fs.
Proof.
  induction fs as [| g rest IH]; [by split |].
  rewrite next_future_cons. split.
  - destruct (is_after L now g) as [[|] | e] eqn:Hg; cbn [rbind];
      try discriminate.
    intros H. constructor; [exact Hg | by apply IH].
  - intros H. apply Forall_cons in H as [-> H]. cbn [rbind]. by apply IH.
Qed.

(** X10. [next] finds nothing exactly when every record compares as not
    after [now]; and a record whose time cannot be read or compared, met
    before any later one, makes the search raise that error. *)
Theorem next_future_none now fs :
  (next_future L now fs = Ok None
   <-> Forall (fun g => is_after L now g = Ok false) fs)
  /\ forall before g behind e,
       fs = before ++ g :: behind ->
       Forall (fun g => is_after L now g = Ok false) before ->
       is_after L now g = Raise e ->
       next_future L now fs = Raise e.
Proof.
  split; [apply next_future_none_iff |].
  intros before g behind e -> Hbefore Hg.
  induction Hbefore as [| g0 before Hg0 _ IH]; cbn [app];
    rewrite next_future_cons.
  - by rewrite Hg.
  - by rewrite Hg0.
Qed.

(** X11. When no record of the hourly array lies after [now], the record
    taken is the last of the array; an empty array leaves none to take
    and the selection raises [IndexError]. *)
Theorem current_record_falls_back_to_last now body hs :
  rbind (getitem body "forecast") (fun f => getitem f "60minutes")
  = Ok (JList hs) ->
  Forall (fun g => is_after L now g = Ok false) hs ->
  current_record L now body = of_option (last hs) IndexError.
Proof.
  intros Hpath Hstale. unfold current_record. rewrite Hpath.
  cbn [rbind py_iter].
  rewrite (proj2 (next_future_none_iff now hs) Hstale). reflexivity.
Qed.

(** X12. A cycle that receives an empty hourly array logs that no
    forecast was found, raises [IndexError] and leaves the published
    snapshot as it was. *)
Theorem update_raises_on_empty_hourly_array s body s1 :
  __get L env forecast_url [] s = (Ok body, s1) ->
  rbind (getitem body "forecast") (fun f => getitem f "60minutes")
  = Ok (JList []) ->
  __update L env s
  = (Raise IndexError,
     set_trace
       (EvLog "warning" "No forecast found for current hour {}" []
        :: EvNow :: trace s1) s1)
  /\ published s1 = published s.
Proof.
  intros Hget Hpath. split.
  - unfold __update. cbv zeta. rewrite bind_gets.
    rewrite (bind_eq_ok _ _ _ _ _ Hget).
    unfold bind at 1, lift at 1. rewrite Hpath.
    unfold bind at 1, now_astimezone, bind at 1, emit at 1, modify at 1,
      ask, gets at 1. cbn [trace set_trace].
    unfold bind at 1, lift at 1. cbn [py_iter].
    unfold bind at 1, lift at 1. cbn [next_future].
    unfold bind at 1, bind at 1, emit at 1, modify at 1, lift at 1.
    reflexivity.
  - apply same_entity_published. by eapply get_same_entity.
Qed.
End Selection.

Lemma next_future_first_witness :
  next_future Runtime.lib Sample.now
    ([SampleMore.hour_09; Sample.hour_10] ++ [JNull])
  = Ok (Some Sample.hour_10).
Proof.
  assert (next_future Runtime.lib Sample.now
            [SampleMore.hour_09; Sample.hour_10] = Ok (Some Sample.hour_10))
    as Hfound by (vm_compute; reflexivity).
  destruct (next_future_first Runtime.lib Sample.now _ _ Hfound)
    as [_ Hmore].
  apply Hmore.
Defined.

Lemma next_future_none_witness :
  next_future Runtime.lib Sample.now [SampleMore.hour_09; JNull]
  = Raise TypeError.
Proof.
  destruct (next_future_none Runtime.lib Sample.now
              [SampleMore.hour_09; JNull]) as [_ Hraise].
  apply (Hraise [SampleMore.hour_09] JNull []); [reflexivity | |].
  - constructor; [vm_compute; reflexivity | constructor].
  - reflexivity.
Defined.

Lemma current_record_falls_back_to_last_witness :
  current_record Runtime.lib Sample.now
    (JDict [("forecast", JDict [("60minutes", JList [SampleMore.hour_09])])])
  = Ok SampleMore.hour_09.
Proof.
  rewrite (current_record_falls_back_to_last Runtime.lib Sample.now
             (JDict [("forecast",
                      JDict [("60minutes", JList [SampleMore.hour_09])])])
             [SampleMore.hour_09] eq_refl); [reflexivity |].
  constructor; [vm_compute; reflexivity | constructor].
Defined.

Lemma update_raises_on_empty_hourly_array_witness :
  fst (__update Runtime.lib SampleMore.empty_world Sample.settled)
  = Raise IndexError.
Proof.
  assert (exists body s1,
            __get Runtime.lib SampleMore.empty_world forecast_url []
              Sample.settled = (Ok body, s1)
            /\ rbind (getitem body "forecast")
                 (fun f => getitem f "60minutes") = Ok (JList []))
    as (body & s1 & Hget & Hpath)
    by (eexists _, _; split; vm_compute; reflexivity).
  destruct (update_raises_on_empty_hourly_array Runtime.lib
              SampleMore.empty_world _ _ _ Hget Hpath) as [Hrun _].
  by rewrite Hrun.
Defined.

(** ** The token manager: further properties *)

Section TokenMore.
Context (L : pylib) (env : environment L).

(** X13. The check passes exactly the dicts that carry [access_token]
    and [expires_in].  A dict with [issued_at] is returned as it is and
    the clock is not read; one without gets the clock's whole seconds
    under [issued_at], after one reading of the clock. *)
Theorem check_passes_iff (items : list (string * json)) (s : world) :
  (has_key "access_token" items = true
   /\ has_key "expires_in" items = true ->
   _check_client_credentials_response L env (JDict items) s
   = if has_key "issued_at" items
     then (Ok (JDict items), s)
     else (Ok (JDict (dict_set "issued_at"
                        (JInt (Qtrunc (time_time env (EvTime :: trace s))))
                        items)),
           set_trace (EvTime :: trace s) s))
  /\ (has_key "access_token" items = false
      \/ has_key "expires_in" items = false ->
      fst (_check_client_credentials_response L env (JDict items) s)
      = Raise ValueError).
Proof.
  split.
  - intros [Htok Hexp]. unfold _check_client_credentials_response.
    destruct (has_key "issued_at" items) eqn:Hissued.
    + rewrite bind_eq_ok with (a := items) (s1 := s) by reflexivity.
      cbn [List.filter EXPECTED_KEYS]. by rewrite Hissued, Hexp, Htok.
    + unfold bind at 1, bind at 1, time_now, bind at 1, emit, modify, ask,
        gets, ret. cbn [trace set_trace].
      cbn [List.filter EXPECTED_KEYS].
      unfold has_key in *. rewrite !assoc_dict_set. cbn.
      destruct (assoc "expires_in" items); [| discriminate].
      by destruct (assoc "access_token" items).
  - intros Hmissing.
    destruct (check_missing L env items s) as (s' & -> & _); [| reflexivity].
    unfold has_key in Hmissing.
    destruct (assoc "access_token" items); [| by left].
    destruct (assoc "expires_in" items); [| by right].
    by destruct Hmissing.
Qed.

(** X14. A renewal is all or nothing.  When it raises, the credentials
    are exactly as before; when it returns, the response had passed the
    check and both entries are new: the expiry is [int(expires_in)] plus
    [int(issued_at)] divided by 1000, rounding down, and the key is the
    response's [access_token]. *)
Theorem renew_all_or_nothing (s : world) (r : result unit) (s' : world) :
  _renew_api_key L env s = (r, s') ->
  match r with
  | Raise _ => data s' = data s
  | Ok _ =>
      exists token_data s1 expires_in issued_at tok,
        request_access_token L env (CONF_CONSUMER_KEY (data s))
          (CONF_CONSUMER_SECRET (data s)) s = (Ok token_data, s1)
        /\ rbind (getitem token_data "expires_in") (py_int L) = Ok expires_in
        /\ rbind (getitem token_data "issued_at") (py_int L) = Ok issued_at
        /\ getitem token_data "access_token" = Ok tok
        /\ data s'
           = assign_api_key tok
               (assign_expires_at (expires_in + issued_at / 1000)%Z (data s))
  end.
Proof.
  unfold _renew_api_key. rewrite !bind_gets. intros H.
  apply bind_inv in H as [(d & s1 & Hreq & H) | (e & Hreq & ->)].
  2: { by destruct (request_access_token_only_trace _ _ _ _ _ _ _ Hreq). }
  destruct (request_access_token_only_trace _ _ _ _ _ _ _ Hreq)
    as (Hd & _ & _).
  unfold try_except, int_at, bind, lift, setitem, modify, emit, raise in H.
  destruct (rbind (getitem d "expires_in") (py_int L))
    as [expires_in | e1] eqn:E1.
  2: { destruct (is_Exception e1); injection H as <- <-; exact Hd. }
  destruct (rbind (getitem d "issued_at") (py_int L))
    as [issued_at | e2] eqn:E2.
  2: { destruct (is_Exception e2); injection H as <- <-; exact Hd. }
  destruct (getitem d "access_token") as [tok | e3] eqn:E3.
  2: { exfalso.
       destruct (request_access_token_ok _ _ _ _ _ _ _ Hreq)
         as (items & -> & _ & _ & Htok).
       unfold has_key in Htok. cbn [getitem] in E3.
       by destruct (assoc "access_token" items). }
  injection H as <- <-.
  exists d, s1, expires_in, issued_at, tok.
  repeat split; try done. cbn [data set_data]. by rewrite Hd.
Qed.

(** The credentials after [get_api_key]: untouched, or both entries
    new. *)
Lemma get_api_key_data s r s' :
  get_api_key L env s = (r, s') ->
  data s' = data s
  \/ exists z tok,
       data s' = assign_api_key tok (assign_expires_at z (data s)).
Proof.
  intros H. destruct (needs_renewal L env s) eqn:Hneeds.
  - destruct (get_api_key_renewing L env s Hneeds) as (t & _ & Heq).
    rewrite Heq in H.
    assert (forall u s1, _renew_api_key L env (set_trace t s) = (u, s1) ->
              data s1 = data s
              \/ exists z tok,
                   data s1 = assign_api_key tok (assign_expires_at z (data s)))
      as Hrenew.
    { intros u s1 Hr.
      destruct (renew_data _ _ _ _ _ Hr) as [[_ ->] | (z & tok & _ & ->)];
        [by left | right; by exists z, tok]. }
    apply bind_inv in H as [(u & s1 & Hr & H) | (e & Hr & _)].
    + unfold bind, gets, lift in H. injection H as _ <-. by eapply Hrenew.
    + by eapply Hrenew.
  - rewrite (get_api_key_cached L env s Hneeds) in H.
    injection H as _ <-. by left.
Qed.

End TokenMore.

Lemma check_passes_iff_witness :
  fst (_check_client_credentials_response Runtime.lib Sample.good_world
         Sample.token_no_issued_at Sample.fresh)
  = Ok (JDict [ ("access_token", JStr "tok"); ("expires_in", JInt 3600);
                ("issued_at", JInt 1614587400) ]).
Proof.
  destruct (check_passes_iff Runtime.lib Sample.good_world
              [("access_token", JStr "tok"); ("expires_in", JInt 3600)]
              Sample.fresh) as [Hpass _].
  unfold Sample.token_no_issued_at. rewrite Hpass by (by split).
  vm_compute. reflexivity.
Defined.

Lemma renew_all_or_nothing_witness :
  data (snd (_renew_api_key Runtime.lib Sample.tokenless_world Sample.fresh))
  = data Sample.fresh.
Proof.
  assert (exists e,
            _renew_api_key Runtime.lib Sample.tokenless_world Sample.fresh
            = (Raise e,
               snd (_renew_api_key Runtime.lib Sample.tokenless_world
                      Sample.fresh))) as [e Hrun]
    by (eexists; vm_compute; reflexivity).
  exact (renew_all_or_nothing Runtime.lib Sample.tokenless_world _ _ _ Hrun).
Defined.

(** ** The loop: properties *)

#[export] Instance same_consumer_preorder : PreOrder same_consumer.
Proof.
  split.
  - by intros s.
  - intros s1 s2 s3 [? ?] [? ?]. split; congruence.
Qed.
#[export] Instance same_consumer_trace_blind :
  TraceBlind same_consumer any_event.
Proof. by intros e s _. Qed.
#[export] Instance same_consumer_entity_blind : EntityBlind same_consumer.
Proof. split; by intros x s. Qed.

#[export] Instance stays_cached_together_preorder :
  PreOrder stays_cached_together.
Proof.
  split.
  - intros s H. exact H.
  - intros s1 s2 s3 H12 H23 H. by apply H23, H12.
Qed.
#[export] Instance stays_cached_together_trace_blind :
  TraceBlind stays_cached_together any_event.
Proof. intros e s _ H. exact H. Qed.
#[export] Instance stays_cached_together_entity_blind :
  EntityBlind stays_cached_together.
Proof. split; intros x s H; exact H. Qed.

(** A relation that [get_api_key] keeps, and that is blind to the trace
    and to the entity, is kept by the whole loop. *)
Section KeepsLoop.
Context (L : pylib) (env : environment L).
Context (R : relation world) `{HR : !PreOrder R}.
Context `{HT : !TraceBlind R any_event} `{HE : !EntityBlind R}.
Context (Hkey : keeps R (get_api_key L env)).

Lemma keeps_any_emit e : keeps R (emit e).
Proof using HR HT. by apply (keeps_emit R any_event). Qed.

Hint Resolve keeps_any_emit keeps_ask keeps_await keeps_setattr
  keeps_new_list keeps_list_append : keeps.

Lemma keeps_get_with_key url kwargs : keeps R (__get L env url kwargs).
Proof using All. unfold __get. keeps_walk. Qed.

Lemma keeps_update_with_key : keeps R (__update L env).
Proof using All.
  pose proof keeps_get_with_key.
  pose proof (keeps_parse_loop L R any_event (fun _ _ _ => I)).
  pose proof (keeps_get_condition R any_event (fun _ _ _ => I)).
  unfold __update, now_astimezone, int_at, float_at. keeps_walk.
Qed.

Lemma keeps_loop_turn : keeps R (__update_loop_turn L env).
Proof using All.
  unfold __update_loop_turn.
  refine (keeps_bind _ _ _ _ (fun _ => _)); [| keeps_walk].
  intros s r s' H.
  destruct (__update L env s) as [[u | e] s1] eqn:Hup.
  - etransitivity; [exact (keeps_update_with_key _ _ _ Hup) |].
    revert H. generalize s1 r s'.
    change (keeps R (bind (emit EvPublish)
                       (fun _ => await (async_update_ha_state env)))).
    keeps_walk.
  - etransitivity; [exact (keeps_update_with_key _ _ _ Hup) |].
    destruct e; first [by injection H as _ <- | by eapply keeps_any_emit].
Qed.

Lemma keeps_loop n : keeps R (__update_loop L env n).
Proof using All.
  pose proof keeps_loop_turn.
  induction n as [| n IH]; cbn [__update_loop]; keeps_walk.
Qed.
End KeepsLoop.

Section Loop.
Context (L : pylib) (env : environment L).

(** X15. However many turns the loop makes and however it ends, it
    never changes the consumer key or secret, and the token and its
    expiry stay cached together. *)
Theorem update_loop_keeps_credentials n s r s' :
  __update_loop L env n s = (r, s') ->
  CONF_CONSUMER_KEY (data s') = CONF_CONSUMER_KEY (data s)
  /\ CONF_CONSUMER_SECRET (data s') = CONF_CONSUMER_SECRET (data s)
  /\ (cached_together (data s) -> cached_together (data s')).
Proof.
  intros H.
  assert (same_consumer s s') as [Hk Hs].
  { revert H. apply (keeps_loop L env same_consumer).
    intros w r0 w' Hw. unfold same_consumer.
    destruct (get_api_key_data L env w r0 w' Hw) as [-> | (z & tok & ->)];
      by split. }
  split; [exact Hk | split; [exact Hs |]].
  revert H. apply (keeps_loop L env stays_cached_together).
  intros w r0 w' Hw Hinv. by eapply get_api_key_cached_together.
Qed.

(** A turn after a successful cycle: the host is told once; if that
    call raises, the turn raises and there is no sleep. *)
Lemma loop_turn_after_success s s1 :
  __update L env s = (Ok tt, s1) ->
  __update_loop_turn L env s
  = match async_update_ha_state env (EvPublish :: trace s1) with
    | Raise e => (Raise e, set_trace (EvPublish :: trace s1) s1)
    | Ok _ =>
        let t := EvRandrange 55 65 :: EvPublish :: trace s1 in
        let delay := (random_randrange env t * 60)%Z in
        (asyncio_sleep env (EvSleep delay :: t),
         set_trace (EvSleep delay :: t) s1)
    end.
Proof.
  intros Hup. unfold __update_loop_turn.
  unfold bind at 1. rewrite Hup.
  unfold bind at 1, emit at 1, modify at 1, await at 1.
  cbn [trace set_trace].
  destruct (async_update_ha_state env _); reflexivity.
Qed.

(** A turn after a failed cycle: an [Exception] is logged and the loop
    sleeps; a cancellation leaves the turn as it is. *)
Lemma loop_turn_after_failure s e s1 :
  __update L env s = (Raise e, s1) ->
  __update_loop_turn L env s
  = if is_Exception e
    then
      let t := EvRandrange 55 65
               :: EvLog "error" "failed to update weather" []
               :: trace s1 in
      let delay := (random_randrange env t * 60)%Z in
      (asyncio_sleep env (EvSleep delay :: t),
       set_trace (EvSleep delay :: t) s1)
    else (Raise e, s1).
Proof.
  intros Hup. unfold __update_loop_turn.
  unfold bind at 1. rewrite Hup.
  destruct e; reflexivity.
Qed.

(** X16. What [async_update_ha_state] raises is not caught: after a
    successful cycle it ends the loop, however many turns were to come,
    and the loop does not sleep. *)
Theorem loop_ends_when_publishing_raises n s s1 e :
  __update L env s = (Ok tt, s1) ->
  async_update_ha_state env (EvPublish :: trace s1) = Raise e ->
  __update_loop L env (S n) s
  = (Raise e, set_trace (EvPublish :: trace s1) s1).
Proof.
  intros Hup Hpub. cbn [__update_loop].
  apply bind_eq_raise.
  rewrite (loop_turn_after_success s s1 Hup). by rewrite Hpub.
Qed.

(** X17. The loop outlives a cycle that fails with an [Exception]: the
    failure is logged, the host is not told, and after the sleep the
    loop goes on with its next turn. *)
Theorem loop_goes_on_after_failed_cycle n s e s1 :
  __update L env s = (Raise e, s1) ->
  is_Exception e = true ->
  let t := EvRandrange 55 65
           :: EvLog "error" "failed to update weather" []
           :: trace s1 in
  let delay := (random_randrange env t * 60)%Z in
  asyncio_sleep env (EvSleep delay :: t) = Ok tt ->
  __update_loop L env (S n) s
  = __update_loop L env n (set_trace (EvSleep delay :: t) s1).
Proof.
  intros Hup Hexc t delay Hsleep. cbn [__update_loop].
  assert (__update_loop_turn L env s
          = (Ok tt, set_trace (EvSleep delay :: t) s1)) as Hturn.
  { rewrite (loop_turn_after_failure s e s1 Hup), Hexc.
    cbv zeta. fold t. fold delay. by rewrite Hsleep. }
  by rewrite (bind_eq_ok _ _ _ _ _ Hturn).
Qed.

(** X18. A cancellation that reaches the loop through a cycle ends it
    at once: nothing is logged, the host is not told and the loop does
    not sleep. *)
Theorem loop_ends_when_cancelled n s s1 :
  __update L env s = (Raise CancelledError, s1) ->
  __update_loop L env (S n) s = (Raise CancelledError, s1).
Proof.
  intros Hup. cbn [__update_loop]. apply bind_eq_raise.
  by rewrite (loop_turn_after_failure s _ s1 Hup).
Qed.

Lemma update_same_sleeps s r s' :
  __update L env s = (r, s') -> same_sleeps s s'.
Proof.
  assert (PreOrder same_sleeps) as Hpre.
  { split; [by intros w d | intros w1 w2 w3 H12 H23 d H; by apply H12, H23]. }
  assert (TraceBlind same_sleeps not_sleep) as Hblind.
  { intros ev w Hev d [-> | H]; [by destruct (Hev d) | exact H]. }
  assert (DataBlind same_sleeps) as Hdata by (by intros x w d).
  assert (EntityBlind same_sleeps) as Hent by (split; by intros x w d).
  apply (keeps_update L env same_sleeps not_sleep); by intros.
Qed.

(** X19. As long as [random.randrange(55, 65)] answers within its
    bounds, every sleep of a turn lasts a whole number of minutes, 55 at
    least and 64 at most. *)
Theorem loop_turn_sleeps_55_to_64_minutes s r s' :
  (forall t, (55 <= random_randrange env t < 65)%Z) ->
  __update_loop_turn L env s = (r, s') ->
  forall delay,
    In (EvSleep delay) (trace s') ->
    In (EvSleep delay) (trace s)
    \/ exists minutes,
         (55 <= minutes <= 64)%Z /\ delay = (minutes * 60)%Z.
Proof.
  intros Hrange Hturn delay Hin.
  destruct (__update L env s) as [[[] | e] s1] eqn:Hup.
  - rewrite (loop_turn_after_success s s1 Hup) in Hturn.
    pose proof (update_same_sleeps s _ s1 Hup) as Hsame.
    destruct (async_update_ha_state env _).
    + cbv zeta in Hturn. injection Hturn as _ <-.
      cbn [trace set_trace] in Hin.
      destruct Hin as [[= <-] | [[=] | [[=] | Hin]]].
      * right. eexists. split; [| reflexivity].
        match goal with |- context [random_randrange env ?t] =>
          specialize (Hrange t) end. lia.
      * left. by apply Hsame.
    + injection Hturn as _ <-. cbn [trace set_trace] in Hin.
      destruct Hin as [[=] | Hin]. left. by apply Hsame.
  - rewrite (loop_turn_after_failure s e s1 Hup) in Hturn.
    pose proof (update_same_sleeps s _ s1 Hup) as Hsame.
    destruct (is_Exception e).
    + cbv zeta in Hturn. injection Hturn as _ <-.
      cbn [trace set_trace] in Hin.
      destruct Hin as [[= <-] | [[=] | [[=] | Hin]]].
      * right. eexists. split; [| reflexivity].
        match goal with |- context [random_randrange env ?t] =>
          specialize (Hrange t) end. lia.
      * left. by apply Hsame.
    + injection Hturn as _ <-. left. by apply Hsame.
Qed.
End Loop.

Lemma update_loop_keeps_credentials_witness :
  CONF_CONSUMER_KEY
    (data (snd (__update_loop Runtime.lib Sample.good_world 2 Sample.fresh)))
  = "key"%string.
Proof.
  destruct (update_loop_keeps_credentials Runtime.lib Sample.good_world 2
              Sample.fresh _ _ (surjective_pairing _)) as (Hkey & _ & _).
  rewrite Hkey. reflexivity.
Defined.

Lemma loop_turn_sleeps_55_to_64_minutes_witness :
  exists minutes, (55 <= minutes <= 64)%Z /\ 3420%Z = (minutes * 60)%Z.
Proof.
  destruct (loop_turn_sleeps_55_to_64_minutes Runtime.lib Sample.good_world
              Sample.fresh _ _ (fun _ => ltac:(vm_compute; split; congruence))
              (surjective_pairing _) 3420%Z) as [Hold | Hnew].
  - vm_compute. by left.
  - vm_compute in Hold. contradiction.
  - exact Hnew.
Defined.

Lemma loop_goes_on_after_failed_cycle_witness :
  fst (__update_loop Runtime.lib Sample.failing_world 1 Sample.settled)
  = Ok tt.
Proof.
  assert (__update Runtime.lib Sample.failing_world Sample.settled
          = (Raise ClientError,
             snd (__update Runtime.lib Sample.failing_world Sample.settled)))
    as Hup by (vm_compute; reflexivity).
  rewrite (loop_goes_on_after_failed_cycle Runtime.lib Sample.failing_world
             0 _ _ _ Hup eq_refl); [reflexivity |].
  vm_compute. reflexivity.
Defined.

Lemma loop_ends_when_publishing_raises_witness :
  fst (__update_loop Runtime.lib SampleMore.deaf_host_world 3 Sample.fresh)
  = Raise ValueError.
Proof.
  assert (__update Runtime.lib SampleMore.deaf_host_world Sample.fresh
          = (Ok tt,
             snd (__update Runtime.lib SampleMore.deaf_host_world
                    Sample.fresh)))
    as Hup by (vm_compute; reflexivity).
  by rewrite (loop_ends_when_publishing_raises Runtime.lib
                SampleMore.deaf_host_world 2 _ _ ValueError Hup eq_refl).
Defined.

Lemma loop_ends_when_cancelled_witness :
  fst (__update_loop Runtime.lib SampleMore.cancelled_world 3 Sample.fresh)
  = Raise CancelledError.
Proof.
  assert (__update Runtime.lib SampleMore.cancelled_world Sample.fresh
          = (Raise CancelledError,
             snd (__update Runtime.lib SampleMore.cancelled_world
                    Sample.fresh)))
    as Hup by (vm_compute; reflexivity).
  by rewrite (loop_ends_when_cancelled Runtime.lib
                SampleMore.cancelled_world 2 _ _ Hup).
Defined.

(** ** Parsing: what is kept and what is skipped *)

Section ParsingMore.
Context (L : pylib).

(** [parse_forecast] logs no skipped record of its own. *)
Lemma parse_forecast_skipped day s :
  skipped (trace (snd (parse_forecast L day s))) = skipped (trace s).
Proof.
  unfold parse_forecast, float_at, int_at,
    get_condition_from_symbol, bind, lift, ret, emit, modify.
  repeat match goal with
         | |- context [rbind (getitem day ?k) ?f] =>
             destruct (rbind (getitem day k) f); cbn [rbind snd];
             [| reflexivity]
         | |- context [zassoc ?z SYMBOL_STATE_MAP] =>
             destruct (zassoc z SYMBOL_STATE_MAP); cbn [rbind snd]
         end.
  all: reflexivity.
Qed.

(** X20. A parsing loop loses no record: each one either gives an entry
    or is logged as skipped, the skipped ones in the order of the
    input (the log is read latest first), and the loop never raises. *)
Theorem parse_loop_accounts_for_every_record raws target s r s' :
  parse_loop L target raws s = (r, s') ->
  r = Ok tt
  /\ skipped (trace s')
     = rev (List.filter
              (fun raw => negb (is_ok (parse_forecast_value L raw))) raws)
       ++ skipped (trace s)
  /\ length (parsed_entries L raws) + length (skipped (trace s'))
     = length raws + length (skipped (trace s)).
Proof.
  revert s. induction raws as [| raw rest IH]; intros s H.
  - injection H as <- <-. by repeat split.
  - cbn [parse_loop] in H. rewrite parsed_entries_cons.
    cbn [List.filter].
    pose proof (parse_forecast_value_eq L raw s) as Hval.
    pose proof (parse_forecast_skipped raw s) as Hskip.
    destruct (parse_forecast L raw s) as [[entry | e] s1] eqn:E;
      cbn [fst snd] in Hval, Hskip; rewrite <- Hval; cbn [is_ok negb].
    + unfold bind at 1, try_except, bind at 1 in H. rewrite E in H.
      unfold ret at 1 in H. unfold bind at 1, list_append, modify in H.
      apply IH in H as (-> & Hs & Hlen). cbn [trace set_store] in Hs, Hlen.
      rewrite Hskip in Hs, Hlen. split; [done |]. split; [done |].
      cbn [length]. lia.
    + pose proof (parse_forecast_Exception L raw e (eq_sym Hval)) as Hexc.
      unfold bind at 1, try_except, bind at 1 in H. rewrite E, Hexc in H.
      unfold bind at 1, emit, modify, ret in H.
      apply IH in H as (-> & Hs & Hlen). cbn [trace set_trace] in Hs, Hlen.
      change (skipped (EvLog "warning" "failed to parse forecast day: " [raw]
                       :: trace s1))
        with (raw :: skipped (trace s1)) in Hs, Hlen.
      rewrite Hskip in Hs, Hlen. split; [done |]. split.
      * rewrite Hs. cbn [rev]. by rewrite <- app_assoc.
      * cbn [length] in *. lia.
Qed.

(** X21. A record that lacks one of the seven fields [parse_forecast]
    reads does not parse, [DD_DEG] included though its value reaches no
    entry; what is raised is an [Exception], which the loops of
    [__update] catch. *)
Theorem parse_forecast_needs_every_field day key e0 s :
  In key [ "local_date_time"; "TX_C"; "TN_C"; "SYMBOL_CODE"; "RRR_MM";
           "DD_DEG"; "FF_KMH" ]%string ->
  getitem day key = Raise e0 ->
  exists e,
    fst (parse_forecast L day s) = Raise e /\ is_Exception e = true.
Proof.
  intros Hkey Hmiss.
  rewrite parse_forecast_value_eq.
  destruct (parse_forecast_value L day) as [entry | e] eqn:E.
  2: { exists e. split; [done |]. by eapply parse_forecast_Exception. }
  exfalso. revert E. unfold parse_forecast_value.
  repeat match goal with
         | |- context [rbind (rbind (getitem day ?k) ?f) _] =>
             let G := fresh "G" in
             destruct (getitem day k) eqn:G; cbn [rbind];
             [| discriminate];
             match goal with
             | |- context [rbind (f ?x) _] =>
                 destruct (f x); cbn [rbind]; [| discriminate]
             end
         end.
  intros _.
  repeat (destruct Hkey as [<- | Hkey]; [congruence |]).
  destruct Hkey.
Qed.
End ParsingMore.

Lemma parse_loop_accounts_for_every_record_witness :
  skipped
    (trace (snd (parse_loop Runtime.lib 0
                   [Sample.day_1; Sample.day_2; Sample.day_3] Sample.fresh)))
  = [Sample.day_2].
Proof.
  destruct (parse_loop_accounts_for_every_record Runtime.lib
              [Sample.day_1; Sample.day_2; Sample.day_3] 0 Sample.fresh
              _ _ (surjective_pairing _)) as (_ & Hs & _).
  rewrite Hs. vm_compute. reflexivity.
Defined.

Lemma parse_forecast_needs_every_field_witness :
  exists e,
    fst (parse_forecast Runtime.lib Sample.hour_10 Sample.fresh) = Raise e
    /\ is_Exception e = true.
Proof.
  apply (parse_forecast_needs_every_field Runtime.lib Sample.hour_10
           "TX_C" KeyError Sample.fresh).
  - vm_compute. tauto.
  - vm_compute. reflexivity.
Defined.

(** ** The update cycle and the list objects *)

(** Take the first step of any run apart: it returned, or it raised what
    the whole run raises. *)
Ltac step_any H x sx Hx :=
  apply bind_inv in H;
  destruct H as [(x & sx & Hx & H) | (? & Hx & [= ->])].

(** A step that cannot raise. *)
Ltac step_tot H x sx Hx :=
  let Hy := fresh in
  apply bind_inv in H;
  destruct H as [(x & sx & Hx & H) | (? & Hy & _)];
  [| prim_unfold Hy; discriminate Hy].

(** A new empty list changes no reading of the store: a reference that
    named nothing read as the empty list before. *)
Lemma lookup_beside_new_list (h : list (list fentry)) (i : nat) :
  default [] ((h ++ [[]]) !! i) = default [] (h !! i).
Proof.
  destruct (decide (i < length h)) as [Hlt | Hge].
  - by rewrite lookup_app_l.
  - rewrite lookup_app_r by lia.
    rewrite (lookup_ge_None_2 h i) by lia.
    by destruct (i - length h) as [| [| k]].
Qed.

Section UpdateLists.
Context (L : pylib) (env : environment L).

(** Taking the record of the current hour leaves the entity alone. *)
Lemma select_same_entity (found : option json) hourlyforecast s r w :
  match found with
  | Some f => ret f
  | None =>
      bind (emit (EvLog "warning" "No forecast found for current hour {}" []))
        (fun _ => lift (getitem_last hourlyforecast))
  end s = (r, w) ->
  store w = store s /\ self w = self s.
Proof.
  destruct found as [f |]; intros Hm.
  - inv_gets Hm. by cbn.
  - apply bind_inv in Hm.
    destruct Hm as [(x & sx & Hx & Hm) | (? & Hx & _)].
    + inv_set Hx. inv_lift Hm E. by cbn.
    + prim_unfold Hx. discriminate Hx.
Qed.

(** A cycle that raises has allocated at most one list, an empty one,
    and has not moved the two references of the entity. *)
Lemma update_raise_lists s e s' :
  __update L env s = (Raise e, s') ->
  (store s' = store s \/ store s' = store s ++ [[]])
  /\ _forecast (self s') = _forecast (self s)
  /\ _hourly_forecast (self s') = _hourly_forecast (self s).
Proof.
  intros H. unfold __update in H. cbv zeta in H.
  step_tot H params s0 Hp. inv_gets Hp.
  step_any H body s1 Hget.
  2: { destruct (get_same_entity _ _ _ _ _ _ _ Hget) as [-> ->]. auto. }
  destruct (get_same_entity _ _ _ _ _ _ _ Hget) as [Hstore1 Hself1].
  step_any H hourlyforecast s2 Hh; inv_lift Hh Ehourly.
  2: { rewrite Hstore1, Hself1. auto. }
  step_tot H now s2 Hn. unfold now_astimezone in Hn.
  step_tot Hn u s3 Hn1. inv_set Hn1. inv_gets Hn.
  step_any H candidates s2 Hc; inv_lift Hc Ecands.
  2: { cbn. rewrite Hstore1, Hself1. auto. }
  step_any H found s2 Hf; inv_lift Hf Efound.
  2: { cbn. rewrite Hstore1, Hself1. auto. }
  step_any H forecastnow s2 Hrec.
  2: { destruct (select_same_entity _ _ _ _ _ Hrec) as [-> ->].
       cbn. rewrite Hstore1, Hself1. auto. }
  destruct (select_same_entity _ _ _ _ _ Hrec) as [Hst2 Hse2].
  cbn [store self set_trace] in Hst2, Hse2.
  rewrite Hstore1 in Hst2. rewrite Hself1 in Hse2. clear Hrec.
  step_any H symbol_id s3 Hsym; inv_lift Hsym Esym.
  2: { rewrite Hst2, Hse2. auto. }
  destruct (get_condition_spec symbol_id s2) as [t Hcond'].
  apply bind_inv in H.
  destruct H as [(cond & s3 & Hcond & H) | (? & Hcond & _)];
    rewrite Hcond' in Hcond; [injection Hcond as <- <- | discriminate Hcond].
  step_tot H u0 s3 Hset. inv_set Hset.
  step_any H temperature s3 Ht; inv_lift Ht Etemp.
  2: { cbn. rewrite Hst2, Hse2. auto. }
  step_tot H u' s3 Hset. inv_set Hset.
  step_any H mean_wind s3 Hm; inv_lift Hm Emean.
  2: { cbn. rewrite Hst2, Hse2. auto. }
  step_tot H u'' s3 Hset. inv_set Hset.
  step_any H gust s3 Hg; inv_lift Hg Egust.
  2: { cbn. rewrite Hst2, Hse2. auto. }
  step_tot H u3 s3 Hset. inv_set Hset.
  step_any H deg s3 Hdeg; inv_lift Hdeg Edeg.
  2: { cbn. rewrite Hst2, Hse2. auto. }
  step_any H cardinal s3 Hcard; inv_lift Hcard Ecard.
  2: { cbn. rewrite Hst2, Hse2. auto. }
  step_tot H u4 s3 Hset. inv_set Hset.
  step_any H precipitation s3 Hpr; inv_lift Hpr Eprecip.
  2: { cbn. rewrite Hst2, Hse2. auto. }
  step_any H rain_probability s3 Hrp; inv_lift Hrp Eprob.
  2: { cbn. rewrite Hst2, Hse2. auto. }
  step_tot H u5 s3 Hset. inv_set Hset.
  step_tot H rf s3 Hnew. inv_gets Hnew.
  step_any H days s3 Hdays; inv_lift Hdays Edays.
  2: { cbn. rewrite Hst2, Hse2. auto. }
  apply bind_inv in H.
  destruct H as [(u6 & s3 & Hloop1 & H) | (? & Hloop1 & _)];
    match type of Hloop1 with
    | parse_loop _ ?r ?ds ?w = _ =>
        destruct (parse_loop_spec L ds r w) as (w1 & Hrun1 & Hd1 & Hse1 & Hst1)
    end;
    rewrite Hrun1 in Hloop1; [injection Hloop1 as _ <- | discriminate Hloop1].
  step_tot H u7 s3 Hset. inv_set Hset.
  step_tot H rh s3 Hnew. inv_gets Hnew.
  (* the hourly array has been walked already *)
  rewrite Ehourly in H. cbn [rbind] in H. rewrite Ecands in H.
  step_tot H hours s3 Hhours. inv_lift Hhours Ehours.
  apply bind_inv in H.
  destruct H as [(u8 & s3 & Hloop2 & H) | (? & Hloop2 & _)];
    match type of Hloop2 with
    | parse_loop _ ?r ?ds ?w = _ =>
        destruct (parse_loop_spec L ds r w)
          as (w2 & Hrun2 & Hd2' & Hse2' & Hst2')
    end;
    rewrite Hrun2 in Hloop2; [injection Hloop2 as _ <- | discriminate Hloop2].
  prim_unfold H. discriminate H.
Qed.

(** X22. A cycle that raises leaves both forecast lists as the host
    last read them, wherever it fails: the current fields may have
    moved, the lists have not. *)
Theorem failed_cycle_keeps_forecast_lists s e s' :
  __update L env s = (Raise e, s') ->
  forecast s' = forecast s /\ hourly_forecast s' = hourly_forecast s.
Proof.
  intros H. destruct (update_raise_lists s e s' H) as (Hst & Hf & Hh).
  unfold forecast, hourly_forecast. rewrite Hf, Hh.
  destruct Hst as [-> | ->]; [done |].
  by rewrite !lookup_beside_new_list.
Qed.

(** X23. A cycle never changes a list object that existed before it,
    however it ends; when it succeeds, the entity points at two list
    objects made in this cycle. *)
Theorem cycle_leaves_older_lists s r s' :
  __update L env s = (r, s') ->
  (forall i l, store s !! i = Some l -> store s' !! i = Some l)
  /\ (r = Ok tt ->
      _forecast (self s') = length (store s)
      /\ _hourly_forecast (self s') = S (length (store s))).
Proof.
  intros H. destruct r as [[] | e].
  - destruct (update_ok L env s s' H)
      as (body & s1 & rec & symbol_id & temperature & mean_wind & gust & deg
          & cardinal & precipitation & rain_probability & days & hours
          & _ & _ & _ & _ & _ & _ & _ & _ & _ & _ & _ & _
          & _ & Hstore & Hself).
    split.
    + intros i l Hi. rewrite Hstore. by apply lookup_app_l_Some.
    + intros _. by rewrite Hself.
  - destruct (update_raise_lists s e s' H) as (Hst & _ & _).
    split; [| discriminate].
    intros i l Hi. destruct Hst as [-> | ->]; [done |].
    by apply lookup_app_l_Some.
Qed.

(** X24. After a successful cycle the state is the condition of the
    current record's [SYMBOL_CODE], the temperature its [TTT_C] and the
    wind bearing the cardinal of its [DD_DEG]. *)
Theorem update_publishes_current_record s s' :
  __update L env s = (Ok tt, s') ->
  exists body s1 rec symbol_id temperature deg cardinal,
    __get L env forecast_url [] s = (Ok body, s1)
    /\ current_record L (datetime_now env (EvNow :: trace s1)) body = Ok rec
    /\ rbind (getitem rec "SYMBOL_CODE") (py_int L) = Ok symbol_id
    /\ rbind (getitem rec "TTT_C") (py_float L) = Ok temperature
    /\ rbind (getitem rec "DD_DEG") (py_float L) = Ok deg
    /\ deg_to_cardinal deg = Ok cardinal
    /\ _state (self s') = Some (condition_of symbol_id)
    /\ _temperature (self s') = Some temperature
    /\ _wind_bearing (self s') = Some cardinal.
Proof.
  intros H.
  destruct (update_ok L env s s' H)
    as (body & s1 & rec & symbol_id & temperature & mean_wind & gust & deg
        & cardinal & precipitation & rain_probability & days & hours
        & Hget & Hrec & Hsym & Htemp & _ & _ & Hdeg & Hcard & _ & _ & _ & _
        & _ & _ & Hself).
  exists body, s1, rec, symbol_id, temperature, deg, cardinal.
  repeat (split; [assumption |]).
  by rewrite Hself.
Qed.

(** X25. A successful cycle sets four state attributes from the current
    record: the raw degrees, the symbol code, the precipitation and the
    rain probability.  Every other attribute stays as it was. *)
Theorem update_state_attrs s s' :
  __update L env s = (Ok tt, s') ->
  exists body s1 rec symbol_id deg precipitation rain_probability,
    __get L env forecast_url [] s = (Ok body, s1)
    /\ current_record L (datetime_now env (EvNow :: trace s1)) body = Ok rec
    /\ rbind (getitem rec "SYMBOL_CODE") (py_int L) = Ok symbol_id
    /\ rbind (getitem rec "DD_DEG") (py_float L) = Ok deg
    /\ rbind (getitem rec "RRR_MM") (py_float L) = Ok precipitation
    /\ rbind (getitem rec "PROBPCP_PERCENT") (py_float L)
       = Ok rain_probability
    /\ _state_attrs (self s') !! "wind_direction" = Some (JFloat deg)
    /\ _state_attrs (self s') !! "symbol_id" = Some (JInt symbol_id)
    /\ _state_attrs (self s') !! "precipitation"
       = Some (JFloat precipitation)
    /\ _state_attrs (self s') !! "rain_probability"
       = Some (JFloat rain_probability)
    /\ forall k : string,
         k ∉ ["wind_direction"; "symbol_id"; "precipitation";
               "rain_probability"]%string ->
         _state_attrs (self s') !! k = _state_attrs (self s) !! k.
Proof.
  intros H.
  destruct (update_ok L env s s' H)
    as (body & s1 & rec & symbol_id & temperature & mean_wind & gust & deg
        & cardinal & precipitation & rain_probability & days & hours
        & Hget & Hrec & Hsym & _ & _ & _ & Hdeg & _ & Hpr & Hrp & _ & _
        & _ & _ & Hself).
  exists body, s1, rec, symbol_id, deg, precipitation, rain_probability.
  repeat (split; [assumption |]).
  rewrite Hself. cbn [_state_attrs].
  repeat split.
  - by rewrite !lookup_insert_ne, lookup_insert by done.
  - by rewrite !lookup_insert_ne, lookup_insert by done.
  - by rewrite !lookup_insert_ne, lookup_insert by done.
  - by rewrite lookup_insert.
  - intros k Hk.
    rewrite !lookup_insert_ne; [done | | | |];
      intros <-; apply Hk; set_solver.
Qed.
End UpdateLists.

Lemma failed_cycle_keeps_forecast_lists_witness :
  forecast (snd (__update Runtime.lib Sample.failing_world Sample.settled))
  = forecast Sample.settled.
Proof.
  assert (__update Runtime.lib Sample.failing_world Sample.settled
          = (Raise ClientError,
             snd (__update Runtime.lib Sample.failing_world Sample.settled)))
    as Hup by (vm_compute; reflexivity).
  exact (proj1 (failed_cycle_keeps_forecast_lists _ _ _ _ _ Hup)).
Defined.

Lemma cycle_leaves_older_lists_witness :
  _forecast (self Sample.settled) = length (store Sample.fresh).
Proof.
  assert (__update Runtime.lib Sample.good_world Sample.fresh
          = (Ok tt, Sample.settled)) as Hup by (vm_compute; reflexivity).
  exact (proj1 (proj2 (cycle_leaves_older_lists _ _ _ _ _ Hup) eq_refl)).
Defined.

Lemma update_publishes_current_record_witness :
  _state (self Sample.settled) <> None.
Proof.
  assert (__update Runtime.lib Sample.good_world Sample.fresh
          = (Ok tt, Sample.settled)) as Hup by (vm_compute; reflexivity).
  destruct (update_publishes_current_record _ _ _ _ Hup)
    as (body & s1 & rec & symbol_id & temperature & deg & cardinal
        & _ & _ & _ & _ & _ & _ & Hstate & _).
  by rewrite Hstate.
Defined.

Lemma update_state_attrs_witness :
  _state_attrs (self Sample.settled) !! "rain_probability"%string <> None.
Proof.
  assert (__update Runtime.lib Sample.good_world Sample.fresh
          = (Ok tt, Sample.settled)) as Hup by (vm_compute; reflexivity).
  destruct (update_state_attrs _ _ _ _ Hup)
    as (body & s1 & rec & symbol_id & deg & precipitation & rain_probability
        & _ & _ & _ & _ & _ & _ & _ & _ & _ & Hrain & _).
  by rewrite Hrain.
Defined.

(** ** A cycle that fails *)

(** C3, counterexample.  The current record has [SYMBOL_CODE] 20 and no
    [TTT_C]: the cycle raises [KeyError] after the condition has been
    assigned, so the published state goes from sunny to rainy while the
    temperature stays. *)
Lemma failed_cycle_after_assignment_changes_state :
  fst (__update Runtime.lib Sample.broken_world Sample.settled)
  = Raise KeyError
  /\ pub_state (published Sample.settled) = Some "sunny"%string
  /\ pub_state
       (published
          (snd (__update Runtime.lib Sample.broken_world Sample.settled)))
     = Some "rainy"%string
  /\ pub_temperature
       (published
          (snd (__update Runtime.lib Sample.broken_world Sample.settled)))
     = pub_temperature (published Sample.settled)
  /\ published
       (snd (__update Runtime.lib Sample.broken_world Sample.settled))
     <> published Sample.settled.
Proof.
  repeat split; try (vm_compute; reflexivity).
  intros Heq. apply (f_equal pub_state) in Heq.
  vm_compute in Heq. discriminate Heq.
Qed.

(** C3, amended.  Whatever a cycle raises, it leaves the daily and the
    hourly forecast sequence as they were.  It leaves the whole snapshot
    as it was whenever the failure comes before the first assignment: in
    the token renewal, in the fetch (a status from 400 on included), in
    taking the current record or in coercing its [SYMBOL_CODE]; a later
    failure may have assigned the current fields that precede it.  And
    an [Exception] does not leave the loop: the turn logs [failed to
    update weather], does not tell the host, draws its minutes and
    sleeps; the outcome of the turn is the outcome of the sleep, and the
    state it leaves is the state of the failed cycle with a longer
    trace. *)
Theorem failed_cycle_before_assignment_keeps_snapshot
    L env (s : world) (e : exn) (s' : world) :
  __update L env s = (Raise e, s') ->
  (pub_forecast (published s') = pub_forecast (published s)
   /\ pub_hourly_forecast (published s')
      = pub_hourly_forecast (published s))
  /\ ((exists s1, get_api_key L env s = (Raise e, s1))
      \/ (exists tok s0 resp,
            get_api_key L env s = (Ok tok, s0)
            /\ session_get env
                 (EvGet forecast_url
                    [("headers",
                      [("Authorization", "Bearer " +:+ py_str L tok)])]
                  :: trace s0) = Ok resp
            /\ (400 <= status resp)%Z)
      \/ (exists s1, __get L env forecast_url [] s = (Raise e, s1))
      \/ (exists body s1,
            __get L env forecast_url [] s = (Ok body, s1)
            /\ rbind (current_record L
                        (datetime_now env (EvNow :: trace s1)) body)
                 (fun rec => rbind (getitem rec "SYMBOL_CODE") (py_int L))
               = Raise e) ->
      published s' = published s)
  /\ (is_Exception e = true ->
      let t := EvRandrange 55 65
               :: EvLog "error" "failed to update weather" []
               :: trace s' in
      let delay := (random_randrange env t * 60)%Z in
      __update_loop_turn L env s
      = (asyncio_sleep env (EvSleep delay :: t),
         set_trace (EvSleep delay :: t) s')).
Proof.
  intros H. split; [| split].
  - destruct (update_raise_lists L env s e s' H) as (Hst & Hf & Hh).
    unfold published. cbn [pub_forecast pub_hourly_forecast].
    unfold forecast, hourly_forecast. rewrite Hf, Hh.
    destruct Hst as [-> | ->]; [done |].
    by rewrite !lookup_beside_new_list.
  - assert (forall e0 s1,
              __get L env forecast_url [] s = (Raise e0, s1) ->
              published s' = published s) as Hfetch.
    { intros e0 s1 Hget.
      pose proof (update_get_raise L env s e0 s1 Hget) as Hup.
      rewrite Hup in H. injection H as _ <-.
      apply same_entity_published. by eapply get_same_entity. }
    intros [(s1 & Hkey) | [(tok & s0 & resp & Hkey & Hresp & Hstatus)
                          | [(s1 & Hget) | (body & s1 & Hget & Hsym)]]].
    + eapply Hfetch. by apply get_raises_with_token.
    + destruct (get_raises_on_status L env s tok s0 resp Hkey Hresp Hstatus)
        as (e0 & s1 & Hget).
      by eapply Hfetch.
    + by eapply Hfetch.
    + destruct (update_symbol_raise L env s body s1 e Hget Hsym)
        as (s2 & Hup & Hd & Hst & Hse).
      rewrite Hup in H. injection H as <-.
      transitivity (published s1).
      * apply same_entity_published. by split.
      * apply same_entity_published. by eapply get_same_entity.
  - intros Hexc. cbv zeta.
    rewrite (loop_turn_after_failure L env s e s' H), Hexc. reflexivity.
Qed.

Lemma failed_cycle_before_assignment_keeps_snapshot_witness :
  fst (__update Runtime.lib Sample.failing_world Sample.settled)
  = Raise ClientError
  /\ published
       (snd (__update Runtime.lib Sample.failing_world Sample.settled))
     = published Sample.settled
  /\ fst (__update_loop_turn Runtime.lib Sample.failing_world Sample.settled)
     = Ok tt.
Proof.
  assert (__update Runtime.lib Sample.failing_world Sample.settled
          = (Raise ClientError,
             snd (__update Runtime.lib Sample.failing_world Sample.settled)))
    as Hrun by (vm_compute; reflexivity).
  destruct (failed_cycle_before_assignment_keeps_snapshot _ _ _ _ _ Hrun)
    as (_ & Hkeep & Hturn).
  split; [by rewrite Hrun |]. split.
  - apply Hkeep. right. left.
    eexists _, _, _. split; [vm_compute; reflexivity |].
    split; [vm_compute; reflexivity |].
    vm_compute. discriminate.
  - rewrite (Hturn eq_refl). reflexivity.
Defined.

